(** * Docs.tsx: the navigation synchronizer of the documentation page

  A shallow embedding of [web/src/pages/Docs.tsx].  The React component is
  modelled as a record holding its [useState] cells, its [useRef] cells and
  its [useMemo] cell, together with the traces of what it sends to its
  collaborators ([window.history.pushState], the message banner, the
  console).  Every event handler and effect of the component is a function
  on that record.

  Strings are sequences of bytes ([string] of the Standard Library): a
  JavaScript string is read through its UTF-8 encoding, which is the
  encoding [encodeURIComponent] escapes. *)

From Stdlib Require Import String Ascii List Bool Arith ZArith Lia Permutation Sorted.
Import ListNotations.

Local Open Scope string_scope.
Local Open Scope list_scope.

(** ** Strings as the code uses them *)

Module Str.

(** [s.split(d)] for a one-character separator [d]: never the empty
    list, [''.split(d)] is [['']]. *)
Fixpoint split (d : ascii) (s : string) : list string :=
  match s with
  | EmptyString => [EmptyString]
  | String c r =>
      if Ascii.eqb c d then EmptyString :: split d r
      else match split d r with
           | h :: t => String c h :: t
           | [] => [String c EmptyString]
           end
  end.

(** [s.indexOf(d)] followed by the two [substr] calls around it: the text
    before the first [d], and the text from that [d] on when there is
    one. *)
Fixpoint breakAt (d : ascii) (s : string) : string * option string :=
  match s with
  | EmptyString => (EmptyString, None)
  | String c r =>
      if Ascii.eqb c d then (EmptyString, Some s)
      else let (a, b) := breakAt d r in (String c a, b)
  end.

(** [s.includes(d)] for a character. *)
Fixpoint has (d : ascii) (s : string) : bool :=
  match s with
  | EmptyString => false
  | String c r => Ascii.eqb c d || has d r
  end.

Definition hasAny (ds : list ascii) (s : string) : bool :=
  existsb (fun d => has d s) ds.

Definition isEmpty (s : string) : bool :=
  match s with EmptyString => true | _ => false end.

(** [xs.includes(x)] on an array of strings. *)
Definition includes (x : string) (xs : list string) : bool :=
  existsb (String.eqb x) xs.

(** [a ?? d] where [a] may be [undefined]. *)
Definition orElse {A : Type} (a : option A) (d : A) : A :=
  match a with Some x => x | None => d end.

End Str.

(** ** Percent encoding *)

Module Uri.

Definition between (lo hi : nat) (c : ascii) : bool :=
  Nat.leb lo (nat_of_ascii c) && Nat.leb (nat_of_ascii c) hi.

(** The characters [encodeURIComponent] leaves alone:
    [A-Z a-z 0-9 - _ . ! ~ * ' ( )]. *)
Definition unreserved (c : ascii) : bool :=
  between 65 90 c || between 97 122 c || between 48 57 c
  || Str.has c "-_.!~*'()".

Definition hexDigit (n : nat) : ascii :=
  if Nat.ltb n 10 then ascii_of_nat (48 + n) else ascii_of_nat (55 + n).

Definition hexValue (c : ascii) : option nat :=
  if between 48 57 c then Some (nat_of_ascii c - 48)
  else if between 65 70 c then Some (nat_of_ascii c - 55)
  else if between 97 102 c then Some (nat_of_ascii c - 87)
  else None.

Definition escape (c : ascii) (rest : string) : string :=
  String "%" (String (hexDigit (nat_of_ascii c / 16))
                (String (hexDigit (nat_of_ascii c mod 16)) rest)).

(** [encodeURIComponent(s)]. *)
Fixpoint encodeURIComponent (s : string) : string :=
  match s with
  | EmptyString => EmptyString
  | String c r =>
      if unreserved c then String c (encodeURIComponent r)
      else escape c (encodeURIComponent r)
  end.

(** [decodeURIComponent(s)]; [None] stands for the [URIError] raised on a
    [%] that is not followed by two hexadecimal digits. *)
Fixpoint decodeURIComponent (s : string) : option string :=
  match s with
  | EmptyString => Some EmptyString
  | String c r =>
      if Ascii.eqb c "%" then
        match r with
        | String a (String b r') =>
            match hexValue a, hexValue b, decodeURIComponent r' with
            | Some x, Some y, Some t => Some (String (ascii_of_nat (16 * x + y)) t)
            | _, _, _ => None
            end
        | _ => None
        end
      else option_map (String c) (decodeURIComponent r)
  end.

End Uri.

(** ** The data of the page *)

(** Modelled from the spec: the declaration of [ProjectDetails]
    ([models/ProjectDetails]) is not part of the page; it is the version
    record of the spec, a name and its tags, the two fields the page
    reads. *)
Record ProjectDetails : Type := {
  name : string;
  tags : list string
}.

(** The operations of [repositories/ProjectRepository] the page calls
    after the fetch.  Their code is not part of the page: the page is
    verified for every implementation of them. *)
Class ProjectRepository : Type := {
  compareVersions : ProjectDetails -> ProjectDetails -> Z;
  getLatestVersion : list ProjectDetails -> ProjectDetails;
  getProjectDocsURL : string -> string -> string -> string -> string
}.

(** What [await ProjectRepository.getVersions(project)] produces: the
    array, or an exception caught by the [catch] of the effect. *)
Inductive FetchResult : Type :=
| Fetched (allVersions : list ProjectDetails)
| FetchThrew.

(** What the router hands to the component: [useParams()],
    [useSearchParams()[0].get('hide-ui')] and [useLocation().hash]. *)
Record Location : Type := {
  paramsProject : option string;
  paramsVersion : option string;
  paramsPage : option string;
  searchHideUi : option string;
  locationHash : string
}.

(** The argument of [showMessage]; [showMs = None] is [showMs: null]. *)
Record Message : Type := {
  content : string;
  type : string;
  showMs : option nat
}.

(** Calls made on the message banner. *)
Inductive BannerCall : Type :=
| ClearMessages
| ShowMessage (m : Message).

(** Calls of [console.error]. *)
Inductive ConsoleCall : Type :=
| ErrorText (msg : string)
| ErrorException.

(** The component: state cells, ref cells, the memo cell of [iFrameSrc]
    (its value, the dependencies it was computed for and how often its
    callback ran), and the calls made so far, newest first.  [versionsRef]
    stands for the identity of the array held in [versions]: React compares
    effect dependencies with [Object.is], and every [setVersions] of the
    page stores a fresh array. *)
Record State : Type := {
  versions : list ProjectDetails;
  versionsRef : nat;
  loadingFailed : bool;
  project : string;
  page : string;
  hash : string;
  version : string;
  hideUi : bool;
  iframeUpdateTrigger : nat;
  iFrameSrc : string;
  memoDeps : string * nat;
  memoRuns : nat;
  pushed : list string;
  banner : list BannerCall;
  console : list ConsoleCall
}.

(** What the component returns. *)
Inductive View : Type :=
| NotFound
| LoadingPage
| Frame (src : string) (controls : bool).

(** The callbacks the embedded viewer may invoke. *)
Inductive ViewerEvent : Type :=
| PageChanged (urlPage urlHash : string)
| HashChanged (newHash : string).

(** Everything that can happen to a mounted component. *)
Inductive Event : Type :=
| LocationChanged (loc : Location)
| Viewer (v : ViewerEvent)
| VersionChange (newVersion : string)
| HideUi
| VersionsArrived (requested : string) (r : FetchResult).

(** *** Cell updates *)

Definition setVersions (x : list ProjectDetails) (s : State) : State :=
  {| versions := x; versionsRef := S (versionsRef s); loadingFailed := loadingFailed s; project := project s;
     page := page s; hash := hash s; version := version s; hideUi := hideUi s;
     iframeUpdateTrigger := iframeUpdateTrigger s; iFrameSrc := iFrameSrc s;
     memoDeps := memoDeps s; memoRuns := memoRuns s; pushed := pushed s;
     banner := banner s; console := console s |}.

Definition setLoadingFailed (x : bool) (s : State) : State :=
  {| versions := versions s; versionsRef := versionsRef s; loadingFailed := x; project := project s;
     page := page s; hash := hash s; version := version s; hideUi := hideUi s;
     iframeUpdateTrigger := iframeUpdateTrigger s; iFrameSrc := iFrameSrc s;
     memoDeps := memoDeps s; memoRuns := memoRuns s; pushed := pushed s;
     banner := banner s; console := console s |}.

Definition setProject (x : string) (s : State) : State :=
  {| versions := versions s; versionsRef := versionsRef s; loadingFailed := loadingFailed s; project := x;
     page := page s; hash := hash s; version := version s; hideUi := hideUi s;
     iframeUpdateTrigger := iframeUpdateTrigger s; iFrameSrc := iFrameSrc s;
     memoDeps := memoDeps s; memoRuns := memoRuns s; pushed := pushed s;
     banner := banner s; console := console s |}.

Definition setPage (x : string) (s : State) : State :=
  {| versions := versions s; versionsRef := versionsRef s; loadingFailed := loadingFailed s; project := project s;
     page := x; hash := hash s; version := version s; hideUi := hideUi s;
     iframeUpdateTrigger := iframeUpdateTrigger s; iFrameSrc := iFrameSrc s;
     memoDeps := memoDeps s; memoRuns := memoRuns s; pushed := pushed s;
     banner := banner s; console := console s |}.

Definition setHash (x : string) (s : State) : State :=
  {| versions := versions s; versionsRef := versionsRef s; loadingFailed := loadingFailed s; project := project s;
     page := page s; hash := x; version := version s; hideUi := hideUi s;
     iframeUpdateTrigger := iframeUpdateTrigger s; iFrameSrc := iFrameSrc s;
     memoDeps := memoDeps s; memoRuns := memoRuns s; pushed := pushed s;
     banner := banner s; console := console s |}.

Definition setVersion (x : string) (s : State) : State :=
  {| versions := versions s; versionsRef := versionsRef s; loadingFailed := loadingFailed s; project := project s;
     page := page s; hash := hash s; version := x; hideUi := hideUi s;
     iframeUpdateTrigger := iframeUpdateTrigger s; iFrameSrc := iFrameSrc s;
     memoDeps := memoDeps s; memoRuns := memoRuns s; pushed := pushed s;
     banner := banner s; console := console s |}.

Definition setHideUi (x : bool) (s : State) : State :=
  {| versions := versions s; versionsRef := versionsRef s; loadingFailed := loadingFailed s; project := project s;
     page := page s; hash := hash s; version := version s; hideUi := x;
     iframeUpdateTrigger := iframeUpdateTrigger s; iFrameSrc := iFrameSrc s;
     memoDeps := memoDeps s; memoRuns := memoRuns s; pushed := pushed s;
     banner := banner s; console := console s |}.

(** [setIframeUpdateTrigger(v => v + 1)]. *)
Definition bumpIframeUpdateTrigger (s : State) : State :=
  {| versions := versions s; versionsRef := versionsRef s; loadingFailed := loadingFailed s; project := project s;
     page := page s; hash := hash s; version := version s; hideUi := hideUi s;
     iframeUpdateTrigger := S (iframeUpdateTrigger s); iFrameSrc := iFrameSrc s;
     memoDeps := memoDeps s; memoRuns := memoRuns s; pushed := pushed s;
     banner := banner s; console := console s |}.

(** [window.history.pushState(null, '', url)]. *)
Definition pushState (url : string) (s : State) : State :=
  {| versions := versions s; versionsRef := versionsRef s; loadingFailed := loadingFailed s; project := project s;
     page := page s; hash := hash s; version := version s; hideUi := hideUi s;
     iframeUpdateTrigger := iframeUpdateTrigger s; iFrameSrc := iFrameSrc s;
     memoDeps := memoDeps s; memoRuns := memoRuns s; pushed := url :: pushed s;
     banner := banner s; console := console s |}.

Definition callBanner (c : BannerCall) (s : State) : State :=
  {| versions := versions s; versionsRef := versionsRef s; loadingFailed := loadingFailed s; project := project s;
     page := page s; hash := hash s; version := version s; hideUi := hideUi s;
     iframeUpdateTrigger := iframeUpdateTrigger s; iFrameSrc := iFrameSrc s;
     memoDeps := memoDeps s; memoRuns := memoRuns s; pushed := pushed s;
     banner := c :: banner s; console := console s |}.

Definition consoleError (c : ConsoleCall) (s : State) : State :=
  {| versions := versions s; versionsRef := versionsRef s; loadingFailed := loadingFailed s; project := project s;
     page := page s; hash := hash s; version := version s; hideUi := hideUi s;
     iframeUpdateTrigger := iframeUpdateTrigger s; iFrameSrc := iFrameSrc s;
     memoDeps := memoDeps s; memoRuns := memoRuns s; pushed := pushed s;
     banner := banner s; console := c :: console s |}.

(** The memo cell after its callback ran for the dependencies [d]. *)
Definition storeMemo (v : string) (d : string * nat) (s : State) : State :=
  {| versions := versions s; versionsRef := versionsRef s; loadingFailed := loadingFailed s; project := project s;
     page := page s; hash := hash s; version := version s; hideUi := hideUi s;
     iframeUpdateTrigger := iframeUpdateTrigger s; iFrameSrc := v;
     memoDeps := d; memoRuns := S (memoRuns s); pushed := pushed s;
     banner := banner s; console := console s |}.

(** ** The component *)

(** [xs.sort(cmp)]: a stable sort; an element moves in front of the first
    one it does not compare greater than.  For a consistent comparator
    this is the array every stable sort gives; for a comparator that is
    not consistent the order [Array.prototype.sort] gives is left to the
    engine, and only the members of the array are the same. *)
Fixpoint insertBy {A : Type} (cmp : A -> A -> Z) (x : A) (l : list A) : list A :=
  match l with
  | [] => [x]
  | y :: r => if (cmp x y <=? 0)%Z then x :: l else y :: insertBy cmp x r
  end.

Definition sortBy {A : Type} (cmp : A -> A -> Z) (l : list A) : list A :=
  fold_right (insertBy cmp) [] l.

(** [getUrl] (line 84). *)
Definition getUrl (p v pg h : string) (hideUiFlag : bool) : string :=
  ("#/" ++ p ++ "/" ++ v ++ "/" ++ Uri.encodeURIComponent pg ++ h
     ++ (if hideUiFlag then "?hide-ui=true" else EmptyString))%string.

(** [updateUrl] (line 88): reads the three ref cells. *)
Definition updateUrl (newVersion : string) (hideUiFlag : bool) (s : State) : State :=
  pushState (getUrl (project s) newVersion (page s) (hash s) hideUiFlag) s.

(** [location.hash.split('?')[0] ?? ''] (lines 22 and 127). *)
Definition hashOf (loc : Location) : string :=
  Str.orElse (nth_error (Str.split "?" (locationHash loc)) 0) EmptyString.

(** [searchParams.get('hide-ui') === 'true' ||
     location.hash.split('?')[1] === 'hide-ui=true'] (lines 25 and 128). *)
Definition hideUiOf (loc : Location) : bool :=
  match searchHideUi loc with
  | Some v => String.eqb v "true"
  | None => false
  end
  || match nth_error (Str.split "?" (locationHash loc)) 1 with
     | Some v => String.eqb v "hide-ui=true"
     | None => false
     end.

Definition projectOf (loc : Location) : string :=
  Str.orElse (paramsProject loc) EmptyString.

Definition versionOf (loc : Location) : string :=
  Str.orElse (paramsVersion loc) "latest".

Definition pageOf (loc : Location) : string :=
  Str.orElse (paramsPage loc) "index.html".

(** [iFramePageChanged] (line 93). *)
Definition iFramePageChanged (urlPage urlHash : string) (s : State) : State :=
  if String.eqb urlPage (page s) then s
  else updateUrl (version s) (hideUi s) (setHash urlHash (setPage urlPage s)).

(** [iFrameHashChanged] (line 102). *)
Definition iFrameHashChanged (newHash : string) (s : State) : State :=
  if String.eqb newHash (hash s) then s
  else updateUrl (version s) (hideUi s) (setHash newHash s).

(** [onVersionChanged] (line 110). *)
Definition onVersionChanged (newVersion : string) (s : State) : State :=
  if String.eqb newVersion (version s) then s
  else updateUrl newVersion (hideUi s) (setVersion newVersion s).

(** [onHideUi] (line 118). *)
Definition onHideUi (s : State) : State :=
  updateUrl (version s) true (setHideUi true s).

(** The effect on [[location]] (line 123). *)
Definition syncLocation (loc : Location) (s : State) : State :=
  let urlProject := projectOf loc in
  let urlVersion := versionOf loc in
  let urlPage := pageOf loc in
  let urlHash := hashOf loc in
  let urlHideUi := hideUiOf loc in
  let s1 := if negb (String.eqb urlProject (project s))
            then setProject urlProject (setVersions [] s) else s in
  let s2 := if negb (String.eqb urlVersion (version s))
            then setVersion urlVersion s1 else s1 in
  let s3 := if negb (Bool.eqb urlHideUi (hideUi s))
            then setHideUi urlHideUi s2 else s2 in
  let s4 := if negb (String.eqb urlPage (page s3))
            then bumpIframeUpdateTrigger (setPage urlPage s3) else s3 in
  if negb (String.eqb urlHash (hash s4))
  then bumpIframeUpdateTrigger (setHash urlHash s4) else s4.

Definition outdatedMessage : Message :=
  {| content := "You are viewing an outdated version of the documentation.";
     type := "warning";
     showMs := None |}.

Definition depsEqb (a b : string * nat) : bool :=
  String.eqb (fst a) (fst b) && Nat.eqb (snd a) (snd b).

(** The early returns of the component (lines 174 to 197). *)
Definition view (s : State) : View :=
  if loadingFailed s || String.eqb (project s) EmptyString then NotFound
  else if Nat.eqb (length (versions s)) 0 then LoadingPage
  else Frame (iFrameSrc s) (negb (hideUi s)).

Section Component.

Context {R : ProjectRepository}.

(** The completion of the effect on [[project]] (line 37), for the fetch
    result [r]; [requested] is the [version] its closure captured. *)
Definition resolveVersions (requested : string) (r : FetchResult) (s : State) : State :=
  match r with
  | FetchThrew => setLoadingFailed true (consoleError ErrorException s)
  | Fetched fetched =>
      if Nat.eqb (length fetched) 0 then setLoadingFailed true s
      else
        let allVersions := sortBy (fun a b => compareVersions a b) fetched in
        let s1 := setVersions allVersions s in
        let latestVersion := name (getLatestVersion allVersions) in
        if String.eqb requested "latest" then
          if String.eqb latestVersion "latest" then s1
          else setVersion latestVersion s1
        else
          let versionsAndTags := flat_map (fun v => name v :: tags v) allVersions in
          if Str.includes requested versionsAndTags then s1
          else consoleError
                 (ErrorText ("Version '" ++ requested ++ "' doesn't exist")%string)
                 (setLoadingFailed true s1)
  end.

(** The effect on [[version, versions]] (line 154). *)
Definition outdatedBanner (s : State) : State :=
  if Nat.eqb (length (versions s)) 0 then s
  else
    let latestVersion := name (getLatestVersion (versions s)) in
    if String.eqb (version s) latestVersion then callBanner ClearMessages s
    else callBanner (ShowMessage outdatedMessage) s.

(** The [useMemo] of [iFrameSrc] (line 33) during a render: the callback
    runs when [[version, iframeUpdateTrigger]] differs from the
    dependencies the cell was computed for. *)
Definition render (s : State) : State :=
  let d := (version s, iframeUpdateTrigger s) in
  if depsEqb (memoDeps s) d then s
  else storeMemo (getProjectDocsURL (project s) (version s) (page s) (hash s)) d s.

(** The first render (lines 17 to 35). *)
Definition mount (loc : Location) : State :=
  {| versions := []; versionsRef := 0; loadingFailed := false;
     project := projectOf loc; page := pageOf loc; hash := hashOf loc;
     version := versionOf loc; hideUi := hideUiOf loc;
     iframeUpdateTrigger := 0;
     iFrameSrc := getProjectDocsURL (projectOf loc) (versionOf loc) (pageOf loc) (hashOf loc);
     memoDeps := (versionOf loc, 0); memoRuns := 1;
     pushed := []; banner := []; console := [] |}.

Definition viewerChanged (v : ViewerEvent) (s : State) : State :=
  match v with
  | PageChanged urlPage urlHash => iFramePageChanged urlPage urlHash s
  | HashChanged newHash => iFrameHashChanged newHash s
  end.

Definition handle (e : Event) (s : State) : State :=
  match e with
  | LocationChanged loc => syncLocation loc s
  | Viewer v => viewerChanged v s
  | VersionChange newVersion => onVersionChanged newVersion s
  | HideUi => onHideUi s
  | VersionsArrived requested r => resolveVersions requested r s
  end.

(** The dependencies of the banner effect changed between two renders. *)
Definition bannerDepsChanged (s s' : State) : bool :=
  negb (String.eqb (version s) (version s')
        && Nat.eqb (versionsRef s) (versionsRef s')).

(** One event: its handler, the render that follows, then the banner
    effect when its dependencies changed. *)
Definition step (e : Event) (s : State) : State :=
  let s1 := render (handle e s) in
  if bannerDepsChanged s s1 then outdatedBanner s1 else s1.

Definition run (es : list Event) (s : State) : State :=
  fold_left (fun acc e => step e acc) es s.

(** The memo cell is up to date, as it is after every render.  Each run
    of the memo callback ([memoRuns]) hands a recomputed source address to
    the embedded viewer: it is a reload request. *)
Definition rendered (s : State) : Prop :=
  memoDeps s = (version s, iframeUpdateTrigger s).

End Component.

(** ** The address codec *)

(** The navigation tuple an address stands for. *)
Record Tuple : Type := {
  tProject : string;
  tVersion : string;
  tPage : string;
  tHash : string;
  tHideUi : bool
}.

(** Encoding is [getUrl]. *)
Definition encode (t : Tuple) : string :=
  getUrl (tProject t) (tVersion t) (tPage t) (tHash t) (tHideUi t).

(** The extraction the component performs on what the router hands it
    (lines 124 to 128). *)
Definition decodeLocation (loc : Location) : Tuple :=
  {| tProject := projectOf loc;
     tVersion := versionOf loc;
     tPage := pageOf loc;
     tHash := hashOf loc;
     tHideUi := hideUiOf loc |}.

Definition tupleOf (s : State) : Tuple :=
  {| tProject := project s;
     tVersion := version s;
     tPage := page s;
     tHash := hash s;
     tHideUi := hideUi s |}.

Module Router.

(** Modelled from the spec: the ambient router and location primitives
    (react-router's hash router) are not part of the page.  The spec fixes
    the address grammar
    [#/<project>/<version>/<percent-encoded-page><fragment>[?hide-ui=true]]
    and what the router yields for it: the route params, already decoded,
    the fragment, and a query flag.  [parsePath] cuts the text after the
    leading [#] at its first [#] (the fragment) and then at the first [?]
    of what precedes (the query). *)
Definition parsePath (path : string) : string * string * string :=
  let (beforeHash, h) := Str.breakAt "#" path in
  let (pathname, q) := Str.breakAt "?" beforeHash in
  (pathname, Str.orElse q EmptyString, Str.orElse h EmptyString).

(** Modelled from the spec: a route param is a path segment, percent
    decoded; a segment that does not decode is handed over as it is, and a
    missing or empty one is [undefined]. *)
Definition param (i : nat) (segments : list string) : option string :=
  match nth_error segments i with
  | Some seg =>
      if Str.isEmpty seg then None
      else Some (Str.orElse (Uri.decodeURIComponent seg) seg)
  | None => None
  end.

Definition dropFirst (s : string) : string :=
  match s with
  | EmptyString => EmptyString
  | String _ r => r
  end.

Definition keyValue (piece : string) : string * string :=
  let (k, v) := Str.breakAt "=" piece in
  (k, dropFirst (Str.orElse v EmptyString)).

(** Modelled from the spec: the dedicated query flag,
    [searchParams.get(key)] on the query text. *)
Definition searchGet (key search : string) : option string :=
  match find (fun kv => String.eqb (fst kv) key)
             (map keyValue (Str.split "&" (dropFirst search))) with
  | Some kv => Some (snd kv)
  | None => None
  end.

(** Modelled from the spec: what the router hands to the page for the
    address [url] under the route [/:project/:version/:page]. *)
Definition locate (url : string) : Location :=
  let '(pathname, search, h) := parsePath (dropFirst url) in
  let segments := tl (Str.split "/" pathname) in
  {| paramsProject := param 0 segments;
     paramsVersion := param 1 segments;
     paramsPage := param 2 segments;
     searchHideUi := searchGet "hide-ui" search;
     locationHash := h |}.

End Router.

(** Decoding an address: the router, then the page's extraction. *)
Definition decode (url : string) : Tuple :=
  decodeLocation (Router.locate url).

(** A segment the router hands back unchanged: not empty, and free of the
    path, query and fragment delimiters and of the escape character. *)
Definition plainSegment (s : string) : bool :=
  negb (Str.isEmpty s) && negb (Str.hasAny ["/"; "?"; "#"; "%"]%char s).

(** A fragment as the address grammar has it: empty, or starting with [#]. *)
Definition fragment (h : string) : bool :=
  match h with
  | EmptyString => true
  | String c _ => Ascii.eqb c "#"
  end.

(** A valid navigation tuple: [project] and [version] are plain segments,
    [page] is not empty, [hash] is a fragment. *)
Definition validTuple (t : Tuple) : bool :=
  plainSegment (tProject t) && plainSegment (tVersion t)
  && negb (Str.isEmpty (tPage t)) && fragment (tHash t).

(** [s.includes(m)] for a string [m]. *)
Fixpoint containsText (m s : string) : bool :=
  String.prefix m s
  || match s with
     | EmptyString => false
     | String _ r => containsText m r
     end.

(** The flag marker sequence. *)
Definition flagMarker : string := "?hide-ui=true".

(** The route part of an address, and its optional flag. *)
Definition pathnameOf (p v pg : string) : string :=
  ("/" ++ p ++ "/" ++ v ++ "/" ++ Uri.encodeURIComponent pg)%string.

Definition flagText (f : bool) : string :=
  if f then "?hide-ui=true" else EmptyString.

(** ** A repository to run the page on *)

(** Modelled from the spec: [ProjectRepository] is not part of the page.
    The comparator here is only the fallback order of the spec, lexical
    order on the names, not its semantic-version order: the two agree on
    the names the examples below use, and differ elsewhere ([1.9.0] and
    [1.10.0]).  [latestOf] is the maximum under it, and the sentinel record
    named [latest] for the empty set; the address of the embedded viewer
    is opaque in the spec and is built here from its four arguments. *)
Definition lexicalCompare (a b : ProjectDetails) : Z :=
  match String.compare (name a) (name b) with
  | Lt => (-1)%Z
  | Eq => 0%Z
  | Gt => 1%Z
  end.

(** Modelled from the spec: [latestOf], the last record in ascending
    order, and the sentinel record named [latest] for the empty set. *)
Definition latestOf (vs : list ProjectDetails) : ProjectDetails :=
  last (sortBy lexicalCompare vs) {| name := "latest"; tags := [] |}.

(** Modelled from the spec: [buildDocsSourceAddress], opaque in the spec;
    here its four arguments in a row, so that distinct arguments give
    distinct addresses. *)
Definition docsAddress (p v pg h : string) : string :=
  ("/doc/" ++ p ++ "/" ++ v ++ "/" ++ pg ++ h)%string.

(** Modelled from the spec: a repository made of the three operations
    above. *)
Definition lexicalRepository : ProjectRepository :=
  {| compareVersions := lexicalCompare;
     getLatestVersion := latestOf;
     getProjectDocsURL := docsAddress |}.

(** A version record without tags. *)
Definition release (n : string) : ProjectDetails := {| name := n; tags := [] |}.

(** The event is the completion of the fetch of the versions. *)
Definition arrival (e : Event) : bool :=
  match e with
  | VersionsArrived _ _ => true
  | _ => false
  end.

(** A consistent comparator, as [Array.prototype.sort] asks for one: [a]
    compares below [b] exactly when [b] compares above [a], and comparing
    not above is transitive. *)
Definition consistentComparator {A : Type} (cmp : A -> A -> Z) : Prop :=
  (forall a b, (cmp a b < 0)%Z <-> (0 < cmp b a)%Z)
  /\ (forall a b c, (cmp a b <= 0)%Z -> (cmp b c <= 0)%Z -> (cmp a c <= 0)%Z).

(** The order a comparator puts two records in: [a] may stand before [b]. *)
Definition inOrder {A : Type} (cmp : A -> A -> Z) (a b : A) : Prop :=
  (cmp a b <= 0)%Z.

(** * Facts *)

(** ** Strings *)

Module StrFacts.

Import Str.

Lemma append_empty_r (s : string) : (s ++ EmptyString)%string = s.
Proof. induction s as [|c r IH]; simpl; [reflexivity | now rewrite IH]. Qed.

Lemma append_assoc (a b c : string) :
  ((a ++ b) ++ c)%string = (a ++ (b ++ c))%string.
Proof. induction a as [|x r IH]; simpl; [reflexivity | now rewrite IH]. Qed.

Lemma has_append (d : ascii) (a b : string) :
  has d (a ++ b)%string = has d a || has d b.
Proof.
  induction a as [|x r IH]; simpl; [reflexivity|].
  rewrite IH. now rewrite orb_assoc.
Qed.

Lemma breakAt_none (d : ascii) (s : string) :
  has d s = false -> breakAt d s = (s, None).
Proof.
  induction s as [|c r IH]; simpl; [reflexivity|].
  intros H. apply orb_false_iff in H as [Hc Hr].
  rewrite Hc, (IH Hr). reflexivity.
Qed.

Lemma breakAt_append (d : ascii) (a b : string) :
  has d a = false ->
  breakAt d (a ++ String d b)%string = (a, Some (String d b)).
Proof.
  induction a as [|c r IH]; simpl.
  - intros _. now rewrite Ascii.eqb_refl.
  - intros H. apply orb_false_iff in H as [Hc Hr].
    rewrite Hc, (IH Hr). reflexivity.
Qed.

Lemma split_none (d : ascii) (s : string) :
  has d s = false -> split d s = [s].
Proof.
  induction s as [|c r IH]; simpl; [reflexivity|].
  intros H. apply orb_false_iff in H as [Hc Hr].
  rewrite Hc, (IH Hr). reflexivity.
Qed.

Lemma split_append (d : ascii) (a b : string) :
  has d a = false ->
  split d (a ++ String d b)%string = a :: split d b.
Proof.
  induction a as [|c r IH]; simpl.
  - intros _. now rewrite Ascii.eqb_refl.
  - intros H. apply orb_false_iff in H as [Hc Hr].
    rewrite Hc, (IH Hr). reflexivity.
Qed.

Lemma hasAny_false (ds : list ascii) (s : string) (d : ascii) :
  hasAny ds s = false -> In d ds -> has d s = false.
Proof.
  unfold hasAny. intros H Hin.
  destruct (has d s) eqn:E; [|reflexivity].
  assert (existsb (fun x => has x s) ds = true) as Hex
    by (apply existsb_exists; exists d; split; assumption).
  congruence.
Qed.

Lemma includes_In (x : string) (xs : list string) :
  includes x xs = true <-> In x xs.
Proof.
  unfold includes. rewrite existsb_exists. split.
  - intros [y [Hy Heq]]. apply String.eqb_eq in Heq. now subst.
  - intros H. exists x. split; [assumption | apply String.eqb_refl].
Qed.

End StrFacts.

(** ** Percent encoding *)

Module UriFacts.

Import Str Uri.

Ltac each_byte c :=
  destruct c as [[|] [|] [|] [|] [|] [|] [|] [|]].

Lemma hexValue_high (c : ascii) :
  hexValue (hexDigit (nat_of_ascii c / 16)) = Some (nat_of_ascii c / 16).
Proof. each_byte c; reflexivity. Qed.

Lemma hexValue_low (c : ascii) :
  hexValue (hexDigit (nat_of_ascii c mod 16)) = Some (nat_of_ascii c mod 16).
Proof. each_byte c; reflexivity. Qed.

Lemma byte_of_digits (c : ascii) :
  ascii_of_nat (16 * (nat_of_ascii c / 16) + nat_of_ascii c mod 16) = c.
Proof. each_byte c; reflexivity. Qed.

Lemma unreserved_not_percent (c : ascii) :
  unreserved c = true -> Ascii.eqb c "%" = false.
Proof. each_byte c; vm_compute; congruence. Qed.

(** Decoding undoes encoding, for every text. *)
Lemma decode_encode (s : string) :
  decodeURIComponent (encodeURIComponent s) = Some s.
Proof.
  induction s as [|c r IH]; [reflexivity|].
  cbn [encodeURIComponent]. destruct (unreserved c) eqn:U.
  - cbn [decodeURIComponent]. rewrite (unreserved_not_percent c U), IH.
    reflexivity.
  - unfold escape. cbn [decodeURIComponent]. rewrite Ascii.eqb_refl.
    rewrite hexValue_high, hexValue_low, IH, byte_of_digits. reflexivity.
Qed.

(** Text without [%] decodes to itself. *)
Lemma decode_plain (s : string) :
  has "%" s = false -> decodeURIComponent s = Some s.
Proof.
  induction s as [|c r IH]; [reflexivity|].
  cbn [has decodeURIComponent]. intros H.
  apply orb_false_iff in H as [Hc Hr].
  rewrite Hc, (IH Hr). reflexivity.
Qed.

Lemma encoded_byte_clean (d c : ascii) (r : string) :
  In d ["/"; "?"; "#"]%char ->
  has d r = false ->
  has d (if unreserved c then String c r else escape c r) = false.
Proof.
  intros Hd Hr. cbn [In] in Hd.
  destruct Hd as [<- | [<- | [<- | []]]]; each_byte c; cbn; exact Hr.
Qed.

(** The encoding holds none of the delimiters of an address. *)
Lemma encode_clean (d : ascii) (s : string) :
  In d ["/"; "?"; "#"]%char -> has d (encodeURIComponent s) = false.
Proof.
  intros Hd. induction s as [|c r IH]; [reflexivity|].
  cbn [encodeURIComponent]. now apply encoded_byte_clean.
Qed.

Lemma encode_not_empty (s : string) :
  isEmpty s = false -> isEmpty (encodeURIComponent s) = false.
Proof.
  destruct s as [|c r]; [discriminate|]. intros _.
  cbn [encodeURIComponent]. destruct (unreserved c); reflexivity.
Qed.

End UriFacts.

(** ** The address codec *)

Module CodecFacts.

Import Str StrFacts Uri UriFacts Router.

(** The address is the pathname, the fragment, then the flag. *)
Lemma getUrl_parts (p v pg h : string) (f : bool) :
  dropFirst (getUrl p v pg h f) = (pathnameOf p v pg ++ h ++ flagText f)%string.
Proof.
  unfold getUrl, pathnameOf, flagText. cbn [append dropFirst].
  rewrite !append_assoc. cbn [append]. rewrite !append_assoc.
  reflexivity.
Qed.

Lemma plainSegment_clean (d : ascii) (s : string) :
  plainSegment s = true -> In d ["/"; "?"; "#"; "%"]%char -> has d s = false.
Proof.
  unfold plainSegment. intros H Hd.
  apply andb_true_iff in H as [_ H]. apply negb_true_iff in H.
  now apply hasAny_false with (ds := ["/"; "?"; "#"; "%"]%char).
Qed.

Lemma plainSegment_not_empty (s : string) :
  plainSegment s = true -> isEmpty s = false.
Proof.
  unfold plainSegment. intros H.
  apply andb_true_iff in H as [H _]. now apply negb_true_iff in H.
Qed.

Section Pathname.

Variables p v pg : string.
Hypothesis Hp : plainSegment p = true.
Hypothesis Hv : plainSegment v = true.
Hypothesis Hpg : isEmpty pg = false.

Lemma pathname_clean (d : ascii) :
  In d ["?"; "#"]%char -> has d (pathnameOf p v pg) = false.
Proof.
  intros Hd. unfold pathnameOf. cbn [append has].
  assert (In d ["/"; "?"; "#"; "%"]%char) as Hd4
    by (cbn [In] in *; tauto).
  assert (In d ["/"; "?"; "#"]%char) as Hd3
    by (cbn [In] in *; tauto).
  repeat (rewrite has_append; cbn [has]).
  rewrite (plainSegment_clean d p Hp Hd4), (plainSegment_clean d v Hv Hd4).
  rewrite (encode_clean d pg Hd3).
  cbn [In] in Hd. destruct Hd as [<- | [<- | []]]; reflexivity.
Qed.

Lemma pathname_segments :
  tl (split "/" (pathnameOf p v pg)) = [p; v; encodeURIComponent pg].
Proof.
  unfold pathnameOf. cbn [append split Ascii.eqb Bool.eqb tl].
  rewrite split_append
    by (apply plainSegment_clean; [assumption | cbn [In]; tauto]).
  rewrite split_append
    by (apply plainSegment_clean; [assumption | cbn [In]; tauto]).
  rewrite split_none by (apply encode_clean; cbn [In]; tauto).
  reflexivity.
Qed.

Lemma pathname_params :
  let segments := tl (split "/" (pathnameOf p v pg)) in
  param 0 segments = Some p /\ param 1 segments = Some v
  /\ param 2 segments = Some pg.
Proof.
  cbv zeta. rewrite pathname_segments. unfold param. cbn [nth_error].
  rewrite (plainSegment_not_empty p Hp), (plainSegment_not_empty v Hv).
  rewrite (encode_not_empty pg Hpg).
  rewrite (decode_plain p), (decode_plain v), decode_encode;
    try (apply plainSegment_clean; [assumption | cbn [In]; tauto]).
  cbn [orElse]. repeat split.
Qed.

End Pathname.

Section RoundTrip.

Variables (p v pg h : string) (f : bool).
Hypothesis Hp : plainSegment p = true.
Hypothesis Hv : plainSegment v = true.
Hypothesis Hpg : isEmpty pg = false.
Hypothesis Hfrag : fragment h = true.

Lemma flagText_no_hash : has "#" (flagText f) = false.
Proof. destruct f; reflexivity. Qed.

(** What the router cuts an address into: with an empty fragment the flag
    is the query, otherwise it stays at the end of the fragment. *)
Lemma parsePath_address :
  parsePath (dropFirst (getUrl p v pg h f))
  = if isEmpty h then (pathnameOf p v pg, flagText f, EmptyString)
    else (pathnameOf p v pg, EmptyString, (h ++ flagText f)%string).
Proof.
  rewrite getUrl_parts. unfold parsePath.
  pose proof (pathname_clean p v pg Hp Hv "#") as Hh.
  pose proof (pathname_clean p v pg Hp Hv "?") as Hq.
  destruct h as [|c r]; cbn [isEmpty].
  - cbn [append]. rewrite breakAt_none
      by (rewrite has_append, Hh, flagText_no_hash;
          [reflexivity | cbn [In]; tauto]).
    destruct f; cbn [flagText].
    + rewrite breakAt_append by (apply Hq; cbn [In]; tauto). reflexivity.
    + rewrite append_empty_r.
      rewrite breakAt_none by (apply Hq; cbn [In]; tauto). reflexivity.
  - cbn [fragment] in Hfrag. apply Ascii.eqb_eq in Hfrag. subst c.
    cbn [append].
    rewrite breakAt_append by (apply Hh; cbn [In]; tauto).
    rewrite breakAt_none by (apply Hq; cbn [In]; tauto). reflexivity.
Qed.

(** The location the router hands over for an address written by
    [getUrl]. *)
Lemma locate_address :
  Router.locate (getUrl p v pg h f)
  = {| paramsProject := Some p;
       paramsVersion := Some v;
       paramsPage := Some pg;
       searchHideUi := if isEmpty h && f then Some "true" else None;
       locationHash := if isEmpty h then EmptyString else (h ++ flagText f)%string |}.
Proof.
  unfold Router.locate. rewrite parsePath_address.
  destruct (pathname_params p v pg Hp Hv Hpg) as [E0 [E1 E2]].
  cbv zeta in E0, E1, E2.
  destruct (isEmpty h); cbv iota beta; rewrite E0, E1, E2.
  - destruct f; reflexivity.
  - reflexivity.
Qed.

(** The fragment comes back when it holds no [?]. *)
Lemma hash_back :
  has "?" h = false ->
  hashOf (Router.locate (getUrl p v pg h f)) = h
  /\ hideUiOf (Router.locate (getUrl p v pg h f)) = f.
Proof.
  intros Hq. rewrite locate_address. unfold hashOf, hideUiOf.
  cbn [searchHideUi locationHash].
  destruct h as [|c r]; cbn [isEmpty andb].
  - destruct f; split; reflexivity.
  - destruct f; cbn [flagText].
    + rewrite split_append by exact Hq. split; reflexivity.
    + rewrite append_empty_r, split_none by exact Hq. split; reflexivity.
Qed.

End RoundTrip.

End CodecFacts.

(** ** The component: renders, effects and handlers *)

Section ComponentFacts.

Context {R : ProjectRepository}.

Lemma depsEqb_eq (a b : string * nat) : depsEqb a b = true <-> a = b.
Proof.
  destruct a as [a1 a2], b as [b1 b2]. unfold depsEqb. cbn [fst snd].
  rewrite andb_true_iff, String.eqb_eq, Nat.eqb_eq.
  split; [intros [-> ->]; reflexivity | intros E; inversion E; auto].
Qed.

Lemma depsEqb_refl (a : string * nat) : depsEqb a a = true.
Proof. now apply depsEqb_eq. Qed.

(** A render with an up-to-date memo cell changes nothing. *)
Lemma render_rendered (s : State) : rendered s -> render s = s.
Proof.
  unfold rendered, render. intros ->. now rewrite depsEqb_refl.
Qed.

(** After a render the memo cell is up to date. *)
Lemma rendered_render (s : State) : rendered (render s).
Proof.
  unfold rendered, render.
  destruct (depsEqb (memoDeps s) (version s, iframeUpdateTrigger s)) eqn:E.
  - now apply depsEqb_eq.
  - reflexivity.
Qed.

(** A render with a stale memo cell runs the callback once. *)
Lemma render_stale (s : State) :
  memoDeps s <> (version s, iframeUpdateTrigger s) ->
  render s = storeMemo (getProjectDocsURL (project s) (version s) (page s) (hash s))
               (version s, iframeUpdateTrigger s) s.
Proof.
  unfold render. intros H.
  destruct (depsEqb (memoDeps s) (version s, iframeUpdateTrigger s)) eqn:E.
  - apply depsEqb_eq in E. contradiction.
  - reflexivity.
Qed.

(** A render touches the memo cell only. *)
Lemma render_cells (s : State) :
  versions (render s) = versions s /\ versionsRef (render s) = versionsRef s
  /\ loadingFailed (render s) = loadingFailed s /\ project (render s) = project s
  /\ page (render s) = page s /\ hash (render s) = hash s
  /\ version (render s) = version s /\ hideUi (render s) = hideUi s
  /\ iframeUpdateTrigger (render s) = iframeUpdateTrigger s
  /\ pushed (render s) = pushed s /\ banner (render s) = banner s
  /\ console (render s) = console s.
Proof.
  unfold render.
  destruct (depsEqb (memoDeps s) (version s, iframeUpdateTrigger s));
    repeat split.
Qed.

(** The banner effect touches the banner only. *)
Lemma outdatedBanner_cells (s : State) :
  versions (outdatedBanner s) = versions s
  /\ loadingFailed (outdatedBanner s) = loadingFailed s
  /\ project (outdatedBanner s) = project s
  /\ page (outdatedBanner s) = page s /\ hash (outdatedBanner s) = hash s
  /\ version (outdatedBanner s) = version s /\ hideUi (outdatedBanner s) = hideUi s
  /\ iframeUpdateTrigger (outdatedBanner s) = iframeUpdateTrigger s
  /\ iFrameSrc (outdatedBanner s) = iFrameSrc s
  /\ memoDeps (outdatedBanner s) = memoDeps s
  /\ memoRuns (outdatedBanner s) = memoRuns s
  /\ pushed (outdatedBanner s) = pushed s
  /\ console (outdatedBanner s) = console s.
Proof.
  unfold outdatedBanner.
  destruct (Nat.eqb (length (versions s)) 0); [repeat split|].
  destruct (String.eqb (version s) (name (getLatestVersion (versions s))));
    repeat split.
Qed.

(** What a step leaves in every cell but the banner: the handler's state,
    rendered. *)
Lemma step_cells (e : Event) (s : State) :
  let s1 := render (handle e s) in
  versions (step e s) = versions s1
  /\ loadingFailed (step e s) = loadingFailed s1
  /\ project (step e s) = project s1
  /\ page (step e s) = page s1 /\ hash (step e s) = hash s1
  /\ version (step e s) = version s1 /\ hideUi (step e s) = hideUi s1
  /\ iframeUpdateTrigger (step e s) = iframeUpdateTrigger s1
  /\ iFrameSrc (step e s) = iFrameSrc s1
  /\ memoDeps (step e s) = memoDeps s1
  /\ memoRuns (step e s) = memoRuns s1
  /\ pushed (step e s) = pushed s1
  /\ console (step e s) = console s1.
Proof.
  cbv zeta. unfold step.
  destruct (bannerDepsChanged s (render (handle e s)));
    [apply outdatedBanner_cells | repeat split].
Qed.

Lemma rendered_step (e : Event) (s : State) : rendered (step e s).
Proof.
  pose proof (step_cells e s) as H. cbv zeta in H.
  destruct H as (_ & _ & _ & _ & _ & Hv & _ & Ht & _ & Hd & _).
  unfold rendered. rewrite Hv, Ht, Hd. apply rendered_render.
Qed.

Lemma rendered_mount (loc : Location) : rendered (mount loc).
Proof. reflexivity. Qed.

Lemma rendered_run (es : list Event) (s : State) :
  rendered s -> rendered (run es s).
Proof.
  revert s. induction es as [|e es IH]; intros s H; [exact H|].
  apply IH, rendered_step.
Qed.

(** The effect on [[location]] does nothing right after the mount: the
    cells were initialised from the same location. *)
Lemma syncLocation_mount (loc : Location) :
  syncLocation loc (mount loc) = mount loc.
Proof.
  unfold syncLocation, mount. cbn.
  rewrite !String.eqb_refl, Bool.eqb_reflx. cbn.
  rewrite !String.eqb_refl. reflexivity.
Qed.

(** No handler ever clears [loadingFailed]. *)
Lemma loadingFailed_handle (e : Event) (s : State) :
  loadingFailed s = true -> loadingFailed (handle e s) = true.
Proof.
  intros H. destruct e as [loc | [pg h | h] | nv | | req r]; cbn [handle viewerChanged].
  - unfold syncLocation.
    repeat match goal with
           | |- context [if ?b then _ else _] => destruct b
           end; cbn; exact H.
  - unfold iFramePageChanged. destruct (String.eqb pg (page s)); cbn; exact H.
  - unfold iFrameHashChanged. destruct (String.eqb h (hash s)); cbn; exact H.
  - unfold onVersionChanged. destruct (String.eqb nv (version s)); cbn; exact H.
  - cbn. exact H.
  - unfold resolveVersions. destruct r as [fetched|]; [|reflexivity].
    repeat match goal with
           | |- context [if ?b then _ else _] => destruct b
           end; cbn; try exact H; reflexivity.
Qed.

Lemma loadingFailed_step (e : Event) (s : State) :
  loadingFailed s = true -> loadingFailed (step e s) = true.
Proof.
  intros H. pose proof (step_cells e s) as C. cbv zeta in C.
  destruct C as (_ & -> & _).
  destruct (render_cells (handle e s)) as (_ & _ & -> & _).
  now apply loadingFailed_handle.
Qed.

Lemma loadingFailed_run (es : list Event) (s : State) :
  loadingFailed s = true -> loadingFailed (run es s) = true.
Proof.
  revert s. induction es as [|e es IH]; intros s H; [exact H|].
  apply IH, loadingFailed_step, H.
Qed.

End ComponentFacts.

(** ** Sorting *)

Lemma insertBy_perm {A : Type} (cmp : A -> A -> Z) (x : A) (l : list A) :
  Permutation (insertBy cmp x l) (x :: l).
Proof.
  induction l as [|y r IH]; cbn [insertBy]; [apply Permutation_refl|].
  destruct (cmp x y <=? 0)%Z; [apply Permutation_refl|].
  eapply perm_trans; [apply perm_skip, IH | apply perm_swap].
Qed.

(** [sort] rearranges the array and loses nothing. *)
Lemma sortBy_perm {A : Type} (cmp : A -> A -> Z) (l : list A) :
  Permutation (sortBy cmp l) l.
Proof.
  induction l as [|x r IH]; [apply perm_nil|].
  cbn [sortBy fold_right]. eapply perm_trans; [apply insertBy_perm|].
  apply perm_skip, IH.
Qed.

Lemma sortBy_length {A : Type} (cmp : A -> A -> Z) (l : list A) :
  length (sortBy cmp l) = length l.
Proof. apply Permutation_length, sortBy_perm. Qed.

(** ** The claims on the address codec *)

(** C2, as amended.  Round trip of the address codec: for every valid
    navigation tuple whose [hash] holds no [?], decoding the address that
    [getUrl] writes (route params for project, version and page, the
    fragment text before [?] for the hash, the flag from the query
    parameter or from the fragment text after [?]) gives the tuple back.
    Nothing is asked of [page]: it is percent encoded. *)
Theorem round_trip (t : Tuple) :
  validTuple t = true ->
  Str.has "?" (tHash t) = false ->
  decode (encode t) = t.
Proof.
  destruct t as [p v pg h f]. unfold validTuple, encode, decode.
  cbn [tProject tVersion tPage tHash tHideUi].
  intros Hvalid Hq.
  apply andb_true_iff in Hvalid as [Hvalid Hfrag].
  apply andb_true_iff in Hvalid as [Hvalid Hpg].
  apply andb_true_iff in Hvalid as [Hp Hv].
  apply negb_true_iff in Hpg.
  destruct (CodecFacts.hash_back p v pg h f Hp Hv Hpg Hfrag Hq) as [Hh Hf].
  unfold decodeLocation. rewrite Hh, Hf.
  rewrite (CodecFacts.locate_address p v pg h f Hp Hv Hpg Hfrag).
  reflexivity.
Qed.

(** The round trip at a tuple whose page holds path separators and the
    flag marker itself. *)
Lemma round_trip_witness :
  let t := {| tProject := "docat"; tVersion := "1.0.0";
              tPage := "guide/a?hide-ui=true.html"; tHash := "#install";
              tHideUi := true |} in
  validTuple t = true /\ Str.has "?" (tHash t) = false
  /\ containsText flagMarker (tPage t) = true /\ decode (encode t) = t.
Proof.
  cbv zeta. refine (conj eq_refl (conj eq_refl (conj eq_refl _))).
  apply (round_trip {| tProject := "docat"; tVersion := "1.0.0";
                       tPage := "guide/a?hide-ui=true.html";
                       tHash := "#install"; tHideUi := true |});
    reflexivity.
Defined.

(** C2, as worded, fails: a valid tuple whose page is free of the flag
    marker, but whose hash holds a [?], does not come back; the component
    cuts the fragment at the first [?] (line 127). *)
Lemma round_trip_breaks_on_query_in_hash :
  let t := {| tProject := "docat"; tVersion := "1.0.0";
              tPage := "index.html"; tHash := "#/usage?id=install";
              tHideUi := false |} in
  validTuple t = true
  /\ containsText flagMarker (tPage t) = false
  /\ tHash (decode (encode t)) = "#/usage"
  /\ decode (encode t) <> t.
Proof.
  cbv zeta. repeat split; try reflexivity.
  intros E. apply (f_equal tHash) in E. vm_compute in E. discriminate E.
Qed.

(** ** The claims on the synchronizer *)

Section Synchronizer.

Context {R : ProjectRepository}.

Lemma bannerDepsChanged_same (s s' : State) :
  version s' = version s -> versionsRef s' = versionsRef s ->
  bannerDepsChanged s s' = false.
Proof.
  unfold bannerDepsChanged. intros -> ->.
  now rewrite String.eqb_refl, Nat.eqb_refl.
Qed.

(** A step that leaves the memo and banner dependencies alone is its
    handler: no callback of the memo runs, no effect runs. *)
Lemma step_quiet (e : Event) (s : State) :
  rendered s ->
  version (handle e s) = version s ->
  iframeUpdateTrigger (handle e s) = iframeUpdateTrigger s ->
  memoDeps (handle e s) = memoDeps s ->
  versionsRef (handle e s) = versionsRef s ->
  step e s = handle e s.
Proof.
  intros Hr Hv Ht Hd Hx. unfold step.
  assert (rendered (handle e s)) as Hr'
    by (unfold rendered in *; now rewrite Hd, Hv, Ht).
  rewrite (render_rendered _ Hr').
  now rewrite bannerDepsChanged_same.
Qed.

Lemma viewerChanged_cells (v : ViewerEvent) (s : State) :
  version (viewerChanged v s) = version s
  /\ iframeUpdateTrigger (viewerChanged v s) = iframeUpdateTrigger s
  /\ memoDeps (viewerChanged v s) = memoDeps s
  /\ versionsRef (viewerChanged v s) = versionsRef s
  /\ iFrameSrc (viewerChanged v s) = iFrameSrc s
  /\ memoRuns (viewerChanged v s) = memoRuns s
  /\ project (viewerChanged v s) = project s
  /\ hideUi (viewerChanged v s) = hideUi s.
Proof.
  destruct v as [pg h | h]; cbn [viewerChanged].
  - unfold iFramePageChanged. destruct (String.eqb pg (page s)); repeat split.
  - unfold iFrameHashChanged. destruct (String.eqb h (hash s)); repeat split.
Qed.

Lemma step_viewer (v : ViewerEvent) (s : State) :
  rendered s -> step (Viewer v) s = viewerChanged v s.
Proof.
  intros Hr.
  destruct (viewerChanged_cells v s) as (Hv & Ht & Hd & Hx & _).
  now apply step_quiet.
Qed.

(** C5.  No reload on navigation: along every sequence of page and hash
    changes reported by the embedded viewer, project and version stay as
    they are, the memo callback never runs and the source address of the
    viewer never changes; each single report that differs from the page
    (the hash) in memory stores the reported page and hash and writes the
    ambient address built from them, and a report that does not differ
    does nothing. *)
Theorem viewer_navigation_never_reloads (vs : list ViewerEvent) (s : State) :
  rendered s ->
  let s' := run (map Viewer vs) s in
  (iFrameSrc s' = iFrameSrc s /\ memoRuns s' = memoRuns s
   /\ project s' = project s /\ version s' = version s)
  /\ (forall pg h,
        step (Viewer (PageChanged pg h)) s
        = if String.eqb pg (page s) then s
          else pushState (getUrl (project s) (version s) pg h (hideUi s))
                 (setHash h (setPage pg s)))
  /\ (forall h,
        step (Viewer (HashChanged h)) s
        = if String.eqb h (hash s) then s
          else pushState (getUrl (project s) (version s) (page s) h (hideUi s))
                 (setHash h s)).
Proof.
  intros Hr. cbv zeta. split; [|split].
  - revert s Hr. induction vs as [|v vs IH]; intros s Hr.
    + repeat split.
    + cbn [map run fold_left]. fold (run (map Viewer vs) (step (Viewer v) s)).
      destruct (IH (step (Viewer v) s) (rendered_step _ _)) as (E1 & E2 & E3 & E4).
      rewrite E1, E2, E3, E4, (step_viewer v s Hr).
      destruct (viewerChanged_cells v s) as (Hv & _ & _ & _ & Hs & Hm & Hp & _).
      repeat split; assumption.
  - intros pg h. rewrite (step_viewer _ s Hr). reflexivity.
  - intros h. rewrite (step_viewer _ s Hr). reflexivity.
Qed.

(** C6.  Explicit version selection: selecting the current version changes
    nothing (no cell, no address, no run of the memo); selecting another
    one stores it, writes the ambient address built from it, and runs the
    memo callback exactly once, on the new version. *)
Theorem version_selection_reloads_once (newVersion : string) (s : State) :
  rendered s ->
  let s' := step (VersionChange newVersion) s in
  (newVersion = version s -> s' = s)
  /\ (newVersion <> version s ->
      version s' = newVersion
      /\ pushed s'
         = getUrl (project s) newVersion (page s) (hash s) (hideUi s) :: pushed s
      /\ memoRuns s' = S (memoRuns s)
      /\ iFrameSrc s' = getProjectDocsURL (project s) newVersion (page s) (hash s)
      /\ project s' = project s /\ page s' = page s /\ hash s' = hash s
      /\ hideUi s' = hideUi s /\ loadingFailed s' = loadingFailed s).
Proof.
  intros Hr. cbv zeta. split.
  - intros ->. rewrite step_quiet; cbn [handle]; unfold onVersionChanged;
      rewrite ?String.eqb_refl; auto.
  - intros Hne.
    pose proof (step_cells (VersionChange newVersion) s) as C. cbv zeta in C.
    destruct C as (_ & C2 & C3 & C4 & C5 & C6 & C7 & _ & C9 & _ & C11 & C12 & _).
    rewrite C2, C3, C4, C5, C6, C7, C9, C11, C12. clear C2 C3 C4 C5 C6 C7 C9 C11 C12.
    cbn [handle]. unfold onVersionChanged.
    apply String.eqb_neq in Hne. rewrite Hne.
    rewrite render_stale.
    + repeat split.
    + cbn. unfold rendered in Hr. rewrite Hr. intros E. inversion E as [E'].
      apply String.eqb_neq in Hne. congruence.
Qed.

Ltac cells :=
  cbn [negb versions versionsRef loadingFailed project page hash version
         hideUi iframeUpdateTrigger iFrameSrc memoDeps memoRuns pushed
         banner console setVersions setLoadingFailed setProject setPage
         setHash setVersion setHideUi bumpIframeUpdateTrigger pushState
         callBanner consoleError storeMemo updateUrl].

Ltac split_ifs :=
  repeat match goal with
         | |- context [if ?b then _ else _] => destruct b
         end.

(** No handler writes the memo cell: only a render does. *)
Lemma handle_memo (e : Event) (s : State) :
  iFrameSrc (handle e s) = iFrameSrc s
  /\ memoDeps (handle e s) = memoDeps s
  /\ memoRuns (handle e s) = memoRuns s.
Proof.
  destruct e as [loc | [pg h | h] | nv | | req [fetched|]];
    cbn [handle viewerChanged];
    unfold syncLocation, iFramePageChanged, iFrameHashChanged,
      onVersionChanged, onHideUi, resolveVersions;
    split_ifs; repeat split.
Qed.

Lemma syncLocation_cells (loc : Location) (s : State) :
  project (syncLocation loc s) = projectOf loc
  /\ version (syncLocation loc s) = versionOf loc
  /\ page (syncLocation loc s) = pageOf loc
  /\ hash (syncLocation loc s) = hashOf loc
  /\ hideUi (syncLocation loc s) = hideUiOf loc
  /\ loadingFailed (syncLocation loc s) = loadingFailed s
  /\ pushed (syncLocation loc s) = pushed s
  /\ iframeUpdateTrigger (syncLocation loc s)
     = iframeUpdateTrigger s
       + (if String.eqb (pageOf loc) (page s) then 0 else 1)
       + (if String.eqb (hashOf loc) (hash s) then 0 else 1).
Proof.
  destruct s as [vs vr lf pr pg ha ve hu tr src md mr pu ba co].
  unfold syncLocation. cells.
  destruct (String.eqb (projectOf loc) pr) eqn:Ep;
    destruct (String.eqb (versionOf loc) ve) eqn:Ev;
    destruct (Bool.eqb (hideUiOf loc) hu) eqn:Eh; cells;
    destruct (String.eqb (pageOf loc) pg) eqn:Eg; cells;
    destruct (String.eqb (hashOf loc) ha) eqn:Ea; cells;
    rewrite ?String.eqb_eq in *; rewrite ?Bool.eqb_true_iff in *;
    repeat split; try congruence; try lia.
Qed.

(** C3, as amended.  Once [hideUi] is true, a page or hash change reported
    by the viewer, a version selection, the hide-ui action and the arrival
    of the versions all leave it true, while an external address change
    sets it to the flag the new address carries, so an address without
    the flag resets it to false. *)
Theorem hideUi_kept_unless_address_drops_it (e : Event) (s : State) :
  hideUi s = true ->
  hideUi (step e s)
  = match e with
    | LocationChanged loc => hideUiOf loc
    | _ => true
    end.
Proof.
  intros H. pose proof (step_cells e s) as C. cbv zeta in C.
  destruct C as (_ & _ & _ & _ & _ & _ & -> & _).
  destruct (render_cells (handle e s)) as (_ & _ & _ & _ & _ & _ & _ & -> & _).
  destruct e as [loc | [pg h | h] | nv | | req [fetched|]];
    cbn [handle viewerChanged].
  - apply syncLocation_cells.
  - unfold iFramePageChanged. split_ifs; exact H.
  - unfold iFrameHashChanged. split_ifs; exact H.
  - unfold onVersionChanged. split_ifs; exact H.
  - reflexivity.
  - unfold resolveVersions. split_ifs; exact H.
  - exact H.
Qed.

(** C4, as amended.  The source address handed to the embedded viewer is
    recomputed by a step exactly when the step changes [version] or
    [iframeUpdateTrigger]: otherwise it keeps its value and the memo
    callback does not run, and then it becomes the address of the current
    project, version, page and hash, the callback running once.  Reports
    of the viewer and the hide-ui action change neither; an external
    address change bumps the trigger once for a page that differs and once
    for a hash that differs, also when project and version stay. *)
Theorem iFrameSrc_follows_version_and_trigger (e : Event) (s : State) :
  rendered s ->
  let s' := step e s in
  (version s' = version s ->
   iframeUpdateTrigger s' = iframeUpdateTrigger s ->
   iFrameSrc s' = iFrameSrc s /\ memoRuns s' = memoRuns s)
  /\ (version s' <> version s \/ iframeUpdateTrigger s' <> iframeUpdateTrigger s ->
      iFrameSrc s' = getProjectDocsURL (project s') (version s') (page s') (hash s')
      /\ memoRuns s' = S (memoRuns s))
  /\ match e with
     | Viewer _ | HideUi =>
         version s' = version s /\ iframeUpdateTrigger s' = iframeUpdateTrigger s
     | LocationChanged loc =>
         iframeUpdateTrigger s'
         = iframeUpdateTrigger s
           + (if String.eqb (pageOf loc) (page s) then 0 else 1)
           + (if String.eqb (hashOf loc) (hash s) then 0 else 1)
     | VersionChange _ | VersionsArrived _ _ =>
         iframeUpdateTrigger s' = iframeUpdateTrigger s
     end.
Proof.
  intros Hr. cbv zeta.
  pose proof (step_cells e s) as C. cbv zeta in C.
  destruct C as (_ & _ & C3 & C4 & C5 & C6 & _ & C8 & C9 & _ & C11 & _).
  rewrite C3, C4, C5, C6, C8, C9, C11. clear C3 C4 C5 C6 C8 C9 C11.
  destruct (render_cells (handle e s))
    as (_ & _ & _ & Rp & Rg & Ra & Rv & _ & Rt & _).
  rewrite Rp, Rg, Ra, Rv, Rt.
  destruct (handle_memo e s) as (Ms & Md & Mr).
  split; [|split].
  - intros Ev Et.
    assert (rendered (handle e s)) as Hr'
      by (unfold rendered in *; now rewrite Md, Ev, Et).
    rewrite (render_rendered _ Hr'). split; assumption.
  - intros Hch. rewrite render_stale.
    + cbn. rewrite Mr. split; reflexivity.
    + rewrite Md. unfold rendered in Hr. rewrite Hr.
      intros E. inversion E as [[Ev Et]]. destruct Hch; congruence.
  - destruct e as [loc | [pg h | h] | nv | | req [fetched|]];
      cbn [handle viewerChanged].
    + apply syncLocation_cells.
    + unfold iFramePageChanged. split_ifs; split; reflexivity.
    + unfold iFrameHashChanged. split_ifs; split; reflexivity.
    + unfold onVersionChanged. split_ifs; reflexivity.
    + split; reflexivity.
    + unfold resolveVersions. split_ifs; reflexivity.
    + reflexivity.
Qed.

(** C10.  No membership check after the one-shot resolution: for every
    text [newVersion] other than the current version, whatever the
    fetched versions hold, an explicit selection stores it and writes the
    ambient address built from it, an external address change to it
    stores it, and neither sets [loadingFailed]. *)
Theorem version_change_never_checks_membership (newVersion : string) (s : State) :
  newVersion <> version s ->
  (let s' := step (VersionChange newVersion) s in
   version s' = newVersion
   /\ pushed s'
      = getUrl (project s) newVersion (page s) (hash s) (hideUi s) :: pushed s
   /\ loadingFailed s' = loadingFailed s)
  /\ (forall loc,
        versionOf loc = newVersion ->
        let s' := step (LocationChanged loc) s in
        version s' = newVersion /\ loadingFailed s' = loadingFailed s).
Proof.
  intros Hne. split.
  - cbv zeta.
    pose proof (step_cells (VersionChange newVersion) s) as C. cbv zeta in C.
    destruct C as (_ & C2 & _ & _ & _ & C6 & _ & _ & _ & _ & _ & C12 & _).
    rewrite C2, C6, C12.
    destruct (render_cells (handle (VersionChange newVersion) s))
      as (_ & _ & -> & _ & _ & _ & -> & _ & _ & -> & _).
    cbn [handle]. unfold onVersionChanged.
    apply String.eqb_neq in Hne. rewrite Hne. repeat split.
  - intros loc Hloc. cbv zeta.
    pose proof (step_cells (LocationChanged loc) s) as C. cbv zeta in C.
    destruct C as (_ & C2 & _ & _ & _ & C6 & _).
    rewrite C2, C6.
    destruct (render_cells (handle (LocationChanged loc) s))
      as (_ & _ & -> & _ & _ & _ & -> & _).
    cbn [handle].
    destruct (syncLocation_cells loc s) as (_ & -> & _ & _ & _ & -> & _).
    split; [exact Hloc | reflexivity].
Qed.

Lemma view_failed (s : State) : loadingFailed s = true -> view s = NotFound.
Proof. unfold view. now intros ->. Qed.

Lemma handle_banner (e : Event) (s : State) : banner (handle e s) = banner s.
Proof.
  destruct e as [loc | [pg h | h] | nv | | req [fetched|]];
    cbn [handle viewerChanged];
    unfold syncLocation, iFramePageChanged, iFrameHashChanged,
      onVersionChanged, onHideUi, resolveVersions;
    split_ifs; reflexivity.
Qed.

Lemma length_zero {A : Type} (l : list A) :
  Nat.eqb (length l) 0 = true <-> l = [].
Proof.
  destruct l; cbn; split; intros H; try reflexivity; discriminate H.
Qed.

Lemma length_nonzero {A : Type} (l : list A) :
  l <> [] -> Nat.eqb (length l) 0 = false.
Proof.
  intros H. destruct (Nat.eqb (length l) 0) eqn:E; [|reflexivity].
  apply length_zero in E. contradiction.
Qed.

(** The membership test of the resolution (lines 64 and 65) finds the
    records of the fetched array that carry the token as name or tag. *)
Lemma versionsAndTags_includes (requested : string) (fetched : list ProjectDetails) :
  Str.includes requested
    (flat_map (fun v => name v :: tags v)
       (sortBy (fun a b => compareVersions a b) fetched)) = true
  <-> exists r, In r fetched /\ (name r = requested \/ In requested (tags r)).
Proof.
  rewrite StrFacts.includes_In, in_flat_map. split.
  - intros [r [Hin Hr]]. exists r. split.
    + eapply Permutation_in; [apply sortBy_perm | exact Hin].
    + cbn [In] in Hr. exact Hr.
  - intros [r [Hin Hr]]. exists r. split.
    + eapply Permutation_in; [apply Permutation_sym, sortBy_perm | exact Hin].
    + cbn [In]. exact Hr.
Qed.

(** C1, as amended.  With the alias [latest] requested and a non-empty
    fetched set, the resolution stores the sorted versions, does not set
    [loadingFailed] and writes no ambient address; when the name of the
    latest version is not the placeholder [latest] it stores that name as
    the version in memory, and when it is the placeholder it leaves the
    version as it was. *)
Theorem latest_alias_resolution (fetched : list ProjectDetails) (s : State) :
  fetched <> [] ->
  let allVersions := sortBy (fun a b => compareVersions a b) fetched in
  let latestVersion := name (getLatestVersion allVersions) in
  let s' := step (VersionsArrived "latest" (Fetched fetched)) s in
  versions s' = allVersions
  /\ loadingFailed s' = loadingFailed s
  /\ pushed s' = pushed s
  /\ (latestVersion <> "latest" -> version s' = latestVersion)
  /\ (latestVersion = "latest" -> version s' = version s).
Proof.
  intros Hne. cbv zeta.
  pose proof (step_cells (VersionsArrived "latest" (Fetched fetched)) s) as C.
  cbv zeta in C.
  destruct C as (C1 & C2 & _ & _ & _ & C6 & _ & _ & _ & _ & _ & C12 & _).
  rewrite C1, C2, C6, C12. clear C1 C2 C6 C12.
  destruct (render_cells (handle (VersionsArrived "latest" (Fetched fetched)) s))
    as (-> & _ & -> & _ & _ & _ & -> & _ & _ & -> & _).
  cbn [handle]. unfold resolveVersions.
  rewrite (length_nonzero fetched Hne). cbn [String.eqb Ascii.eqb Bool.eqb].
  destruct (String.eqb
              (name (getLatestVersion (sortBy (fun a b => compareVersions a b) fetched)))
              "latest") eqn:E.
  - apply String.eqb_eq in E. repeat split; intros; congruence.
  - apply String.eqb_neq in E. repeat split; intros; congruence.
Qed.

(** C7.  With a concrete token requested and a non-empty fetched set, the
    resolution succeeds exactly when the token is the name of a fetched
    record or one of its tags: then [loadingFailed] stays false, the
    version stays and the frame is shown; otherwise [loadingFailed] is
    set, the error is logged and the view is the not-found page. *)
Theorem concrete_version_resolution
    (requested : string) (fetched : list ProjectDetails) (s : State) :
  requested <> "latest" ->
  fetched <> [] ->
  loadingFailed s = false ->
  let s' := step (VersionsArrived requested (Fetched fetched)) s in
  let known := exists r, In r fetched /\ (name r = requested \/ In requested (tags r)) in
  (known <-> loadingFailed s' = false)
  /\ (known ->
      version s' = version s
      /\ versions s' = sortBy (fun a b => compareVersions a b) fetched
      /\ console s' = console s
      /\ (project s <> EmptyString ->
          view s' = Frame (iFrameSrc s') (negb (hideUi s))))
  /\ (~ known ->
      loadingFailed s' = true
      /\ view s' = NotFound
      /\ console s'
         = ErrorText ("Version '" ++ requested ++ "' doesn't exist")%string
             :: console s).
Proof.
  intros Hreq Hne Hlf. cbv zeta.
  pose proof (step_cells (VersionsArrived requested (Fetched fetched)) s) as C.
  cbv zeta in C.
  destruct C as (C1 & C2 & C3 & _ & _ & C6 & C7 & _ & _ & _ & _ & _ & C13).
  destruct (render_cells (handle (VersionsArrived requested (Fetched fetched)) s))
    as (R1 & _ & R3 & R4 & _ & _ & R7 & R8 & _ & _ & _ & R12).
  unfold view. rewrite C1, C2, C3, C6, C7, C13, R1, R3, R4, R7, R8, R12.
  clear C1 C2 C3 C6 C7 C13 R1 R3 R4 R7 R8 R12.
  cbn [handle]. unfold resolveVersions.
  rewrite (length_nonzero fetched Hne).
  apply String.eqb_neq in Hreq. rewrite Hreq.
  pose proof (versionsAndTags_includes requested fetched) as Hk.
  destruct (Str.includes requested
              (flat_map (fun v => name v :: tags v)
                 (sortBy (fun a b => compareVersions a b) fetched))) eqn:E; cells.
  - assert (exists r, In r fetched /\ (name r = requested \/ In requested (tags r)))
      as K by now apply Hk.
    split; [tauto|]. split; [|tauto]. intros _.
    repeat split. intros Hp. rewrite Hlf.
    apply String.eqb_neq in Hp. rewrite Hp. cbn [orb].
    rewrite length_nonzero; [reflexivity|].
    intros E0. apply (f_equal (@length _)) in E0.
    rewrite sortBy_length in E0. destruct fetched; [contradiction | discriminate E0].
  - assert (~ exists r, In r fetched /\ (name r = requested \/ In requested (tags r)))
      as K by (intros K; apply Hk in K; discriminate K).
    split; [split; [tauto | intros F; discriminate F]|].
    split; [tauto|]. intros _. repeat split.
Qed.

(** C8.  An empty fetched collection fails the resolution for good,
    whatever version was requested: [loadingFailed] is set, the view is
    the not-found page, and it stays the not-found page after any further
    events. *)
Theorem empty_version_set_fails (requested : string) (s : State) (es : list Event) :
  let s' := step (VersionsArrived requested (Fetched [])) s in
  loadingFailed s' = true
  /\ view s' = NotFound
  /\ versions s' = versions s
  /\ view (run es s') = NotFound.
Proof.
  cbv zeta.
  assert (loadingFailed (step (VersionsArrived requested (Fetched [])) s) = true) as H.
  { pose proof (step_cells (VersionsArrived requested (Fetched [])) s) as C.
    cbv zeta in C. destruct C as (_ & -> & _).
    destruct (render_cells (handle (VersionsArrived requested (Fetched [])) s))
      as (_ & _ & -> & _). reflexivity. }
  split; [exact H|]. split; [now apply view_failed|]. split.
  - pose proof (step_cells (VersionsArrived requested (Fetched [])) s) as C.
    cbv zeta in C. destruct C as (-> & _).
    destruct (render_cells (handle (VersionsArrived requested (Fetched [])) s))
      as (-> & _). reflexivity.
  - apply view_failed, loadingFailed_run, H.
Qed.

(** The tuple in memory after an address change is the one the address
    decodes to. *)
Lemma syncLocation_decodes (loc : Location) (s : State) :
  tupleOf (syncLocation loc s) = decodeLocation loc.
Proof.
  destruct (syncLocation_cells loc s) as (E1 & E2 & E3 & E4 & E5 & _).
  unfold tupleOf, decodeLocation. now rewrite E1, E2, E3, E4, E5.
Qed.

Lemma mount_decodes (loc : Location) : tupleOf (mount loc) = decodeLocation loc.
Proof. reflexivity. Qed.

(** Reports of the viewer that repeat what is in memory write no address
    and run no memo callback. *)
Lemma viewer_report_idempotent (s : State) :
  rendered s ->
  step (Viewer (PageChanged (page s) (hash s))) s = s
  /\ step (Viewer (HashChanged (hash s))) s = s.
Proof.
  intros Hr. rewrite !step_viewer by exact Hr.
  cbn [viewerChanged]. unfold iFramePageChanged, iFrameHashChanged.
  now rewrite !String.eqb_refl.
Qed.

End Synchronizer.

(** ** The page run on a concrete repository *)

(** C1, as worded, fails: the alias resolves to [1.2.0] and the version in
    memory is set to it, but no ambient address is written, so the
    address is not re-derived from the concrete version. *)
Lemma latest_alias_writes_no_address :
  let s := mount (R := lexicalRepository) (Router.locate "#/docat/latest/index.html") in
  let fetched := [release "1.0.0"; release "1.2.0"; release "1.1.0"] in
  let s' := step (R := lexicalRepository) (VersionsArrived "latest" (Fetched fetched)) s in
  version s = "latest"
  /\ version s' = "1.2.0"
  /\ pushed s' = []
  /\ pushed s'
     <> getUrl (project s') (version s') (page s') (hash s') (hideUi s') :: pushed s.
Proof.
  cbv zeta. refine (conj eq_refl (conj eq_refl (conj eq_refl _))).
  intros E. vm_compute in E. discriminate E.
Qed.

Lemma latest_alias_resolution_witness :
  let s := mount (R := lexicalRepository) (Router.locate "#/docat/latest/index.html") in
  let fetched := [release "1.0.0"; release "1.2.0"; release "1.1.0"] in
  let s' := step (R := lexicalRepository) (VersionsArrived "latest" (Fetched fetched)) s in
  fetched <> []
  /\ versions s' = [release "1.0.0"; release "1.1.0"; release "1.2.0"]
  /\ loadingFailed s' = false
  /\ pushed s' = []
  /\ version s' = "1.2.0".
Proof.
  cbv zeta.
  assert ([release "1.0.0"; release "1.2.0"; release "1.1.0"] <> []) as Hne
    by discriminate.
  split; [exact Hne|].
  destruct (latest_alias_resolution (R := lexicalRepository)
              [release "1.0.0"; release "1.2.0"; release "1.1.0"]
              (mount (R := lexicalRepository)
                 (Router.locate "#/docat/latest/index.html")) Hne)
    as (H1 & H2 & H3 & H4 & _).
  split; [exact H1|]. split; [exact H2|]. split; [exact H3|].
  apply H4. vm_compute. discriminate.
Defined.

(** C3, as worded, fails: after the hide-ui action, an address change
    within the same project to an address without the flag sets [hideUi]
    back to false. *)
Lemma hideUi_reset_by_address_change :
  let s := step (R := lexicalRepository) HideUi
             (mount (R := lexicalRepository)
                (Router.locate "#/docat/1.0.0/index.html")) in
  let s' := step (R := lexicalRepository)
              (LocationChanged (Router.locate "#/docat/1.0.0/guide.html")) s in
  hideUi s = true /\ project s' = project s /\ hideUi s' = false.
Proof. cbv zeta. repeat split. Qed.

Lemma hideUi_kept_witness :
  let s := step (R := lexicalRepository) HideUi
             (mount (R := lexicalRepository)
                (Router.locate "#/docat/1.0.0/index.html")) in
  hideUi s = true
  /\ hideUi (step (R := lexicalRepository) (VersionChange "2.0.0") s) = true
  /\ hideUi (step (R := lexicalRepository)
               (LocationChanged (Router.locate "#/docat/1.0.0/guide.html")) s)
     = hideUiOf (Router.locate "#/docat/1.0.0/guide.html").
Proof.
  cbv zeta. split; [reflexivity|]. split.
  - apply (hideUi_kept_unless_address_drops_it (R := lexicalRepository)
             (VersionChange "2.0.0")). reflexivity.
  - apply (hideUi_kept_unless_address_drops_it (R := lexicalRepository)
             (LocationChanged (Router.locate "#/docat/1.0.0/guide.html"))).
    reflexivity.
Defined.

(** C4, as worded, fails: an external address change that changes the
    page alone, project and version staying, runs the memo callback and
    changes the source address of the viewer. *)
Lemma page_change_by_address_reloads :
  let s := mount (R := lexicalRepository) (Router.locate "#/docat/1.0.0/index.html") in
  let s' := step (R := lexicalRepository)
              (LocationChanged (Router.locate "#/docat/1.0.0/guide.html")) s in
  project s' = project s /\ version s' = version s /\ hash s' = hash s
  /\ page s' <> page s
  /\ memoRuns s' = S (memoRuns s)
  /\ iFrameSrc s = "/doc/docat/1.0.0/index.html"
  /\ iFrameSrc s' = "/doc/docat/1.0.0/guide.html"
  /\ iFrameSrc s' <> iFrameSrc s.
Proof.
  cbv zeta.
  refine (conj eq_refl (conj eq_refl (conj eq_refl (conj _
            (conj eq_refl (conj eq_refl (conj eq_refl _))))))).
  - intros E. vm_compute in E. discriminate E.
  - intros E. vm_compute in E. discriminate E.
Qed.

Lemma iFrameSrc_follows_witness :
  let s := mount (R := lexicalRepository) (Router.locate "#/docat/1.0.0/index.html") in
  let e := LocationChanged (Router.locate "#/docat/1.0.0/guide.html#top") in
  let s' := step (R := lexicalRepository) e s in
  rendered s
  /\ iframeUpdateTrigger s' = 2
  /\ iFrameSrc s' = "/doc/docat/1.0.0/guide.html#top"
  /\ memoRuns s' = 2.
Proof.
  cbv zeta. split; [reflexivity|].
  destruct (iFrameSrc_follows_version_and_trigger (R := lexicalRepository)
              (LocationChanged (Router.locate "#/docat/1.0.0/guide.html#top"))
              (mount (R := lexicalRepository)
                 (Router.locate "#/docat/1.0.0/index.html")) eq_refl)
    as (_ & H2 & H3).
  split; [exact H3|].
  apply H2. right. vm_compute. discriminate.
Defined.

Lemma viewer_navigation_witness :
  let s := mount (R := lexicalRepository) (Router.locate "#/docat/1.0.0/index.html") in
  let s' := run (R := lexicalRepository)
              (map Viewer [PageChanged "guide/a.html" "#top"; HashChanged "#end";
                           HashChanged "#end"]) s in
  rendered s
  /\ iFrameSrc s' = iFrameSrc s /\ memoRuns s' = memoRuns s
  /\ page s' = "guide/a.html" /\ hash s' = "#end"
  /\ pushed s' = ["#/docat/1.0.0/guide%2Fa.html#end"; "#/docat/1.0.0/guide%2Fa.html#top"].
Proof.
  cbv zeta. split; [reflexivity|].
  destruct (viewer_navigation_never_reloads (R := lexicalRepository)
              [PageChanged "guide/a.html" "#top"; HashChanged "#end"; HashChanged "#end"]
              (mount (R := lexicalRepository)
                 (Router.locate "#/docat/1.0.0/index.html")) eq_refl)
    as ((H1 & H2 & _) & _).
  split; [exact H1|]. split; [exact H2|]. repeat split.
Defined.

Lemma version_selection_witness :
  let s := mount (R := lexicalRepository) (Router.locate "#/docat/1.0.0/index.html") in
  let s' := step (R := lexicalRepository) (VersionChange "2.0.0") s in
  rendered s
  /\ step (R := lexicalRepository) (VersionChange "1.0.0") s = s
  /\ version s' = "2.0.0"
  /\ pushed s' = ["#/docat/2.0.0/index.html"]
  /\ memoRuns s' = S (memoRuns s)
  /\ iFrameSrc s' = "/doc/docat/2.0.0/index.html".
Proof.
  cbv zeta. split; [reflexivity|].
  destruct (version_selection_reloads_once (R := lexicalRepository) "1.0.0"
              (mount (R := lexicalRepository)
                 (Router.locate "#/docat/1.0.0/index.html")) eq_refl)
    as (Hsame & _).
  destruct (version_selection_reloads_once (R := lexicalRepository) "2.0.0"
              (mount (R := lexicalRepository)
                 (Router.locate "#/docat/1.0.0/index.html")) eq_refl)
    as (_ & Hother).
  split; [apply Hsame; reflexivity|].
  destruct Hother as (H1 & H2 & H3 & H4 & _); [vm_compute; discriminate|].
  split; [exact H1|]. split; [exact H2|]. split; [exact H3 | exact H4].
Defined.

Lemma concrete_version_resolution_witness :
  let s := mount (R := lexicalRepository) (Router.locate "#/docat/9.9.9/index.html") in
  let fetched := [release "2.0.0"] in
  let s' := step (R := lexicalRepository) (VersionsArrived "9.9.9" (Fetched fetched)) s in
  "9.9.9" <> "latest" /\ fetched <> [] /\ loadingFailed s = false
  /\ loadingFailed s' = true
  /\ view s' = NotFound
  /\ console s' = [ErrorText "Version '9.9.9' doesn't exist"].
Proof.
  cbv zeta.
  assert ("9.9.9" <> "latest") as H1 by discriminate.
  assert ([release "2.0.0"] <> []) as H2 by discriminate.
  split; [exact H1|]. split; [exact H2|]. split; [reflexivity|].
  destruct (concrete_version_resolution (R := lexicalRepository) "9.9.9"
              [release "2.0.0"]
              (mount (R := lexicalRepository)
                 (Router.locate "#/docat/9.9.9/index.html")) H1 H2 eq_refl)
    as (_ & _ & Hfail).
  apply Hfail. intros [r [[<- | []] [H | []]]]. discriminate H.
Defined.

(** A tag resolves like a name. *)
Example tag_resolves :
  let s := mount (R := lexicalRepository) (Router.locate "#/docat/stable/index.html") in
  let fetched := [release "1.0.0"; {| name := "2.0.0"; tags := ["stable"] |}] in
  let s' := step (R := lexicalRepository) (VersionsArrived "stable" (Fetched fetched)) s in
  loadingFailed s' = false /\ version s' = "stable"
  /\ view s' = Frame "/doc/docat/stable/index.html" true.
Proof. cbv zeta. repeat split. Qed.

(** The empty project: not found, whatever was requested. *)
Example empty_project_not_found :
  let s := mount (R := lexicalRepository) (Router.locate "#/docat/latest/index.html") in
  view (step (R := lexicalRepository) (VersionsArrived "latest" (Fetched [])) s)
  = NotFound.
Proof. reflexivity. Qed.

Lemma version_change_witness :
  let s := step (R := lexicalRepository)
             (VersionsArrived "2.0.0" (Fetched [release "2.0.0"]))
             (mount (R := lexicalRepository)
                (Router.locate "#/docat/2.0.0/index.html")) in
  let s' := step (R := lexicalRepository) (VersionChange "9.9.9") s in
  "9.9.9" <> version s
  /\ Str.includes "9.9.9" (flat_map (fun v => name v :: tags v) (versions s)) = false
  /\ version s' = "9.9.9"
  /\ pushed s' = ["#/docat/9.9.9/index.html"]
  /\ loadingFailed s' = false
  /\ view s' = Frame "/doc/docat/9.9.9/index.html" true.
Proof.
  cbv zeta.
  assert ("9.9.9"
          <> version (step (R := lexicalRepository)
                        (VersionsArrived "2.0.0" (Fetched [release "2.0.0"]))
                        (mount (R := lexicalRepository)
                           (Router.locate "#/docat/2.0.0/index.html")))) as Hne
    by (vm_compute; discriminate).
  split; [exact Hne|]. split; [reflexivity|].
  destruct (version_change_never_checks_membership (R := lexicalRepository) "9.9.9"
              (step (R := lexicalRepository)
                 (VersionsArrived "2.0.0" (Fetched [release "2.0.0"]))
                 (mount (R := lexicalRepository)
                    (Router.locate "#/docat/2.0.0/index.html"))) Hne)
    as ((H1 & H2 & H3) & _).
  split; [exact H1|]. split; [exact H2|]. split; [exact H3 | reflexivity].
Defined.

(** * Further properties of the page *)

(** ** Cutting text at a separator *)

Module CutFacts.

Import Str StrFacts.

Lemma split_first (d : ascii) (s : string) :
  nth_error (split d s) 0 = Some (fst (breakAt d s)).
Proof.
  induction s as [|c r IH]; [reflexivity|].
  cbn [split breakAt]. destruct (Ascii.eqb c d); [reflexivity|].
  destruct (split d r) as [|x xs]; [discriminate IH|].
  cbn [nth_error] in *. destruct (breakAt d r) as [a b].
  cbn [fst] in *. now inversion IH.
Qed.

Lemma breakAt_clean (d : ascii) (s : string) :
  has d (fst (breakAt d s)) = false.
Proof.
  induction s as [|c r IH]; [reflexivity|].
  cbn [breakAt]. destruct (Ascii.eqb c d) eqn:E; [reflexivity|].
  destruct (breakAt d r) as [a b]. cbn [fst has] in *. now rewrite E, IH.
Qed.

Lemma breakAt_before (d : ascii) (a b : string) :
  fst (breakAt d (a ++ String d b)%string) = fst (breakAt d a).
Proof.
  induction a as [|c r IH]; cbn [append breakAt].
  - now rewrite Ascii.eqb_refl.
  - destruct (Ascii.eqb c d); [reflexivity|].
    destruct (breakAt d (r ++ String d b)%string) as [x y].
    destruct (breakAt d r) as [x' y']. cbn [fst] in *. now rewrite IH.
Qed.

(** [location.hash.split('?')[0]] is always defined: the fallback of line
    127 is never taken. *)
Lemma hashOf_cut (loc : Location) :
  hashOf loc = fst (breakAt "?" (locationHash loc)).
Proof. unfold hashOf. now rewrite split_first. Qed.

End CutFacts.

(** ** Sorted arrays *)

Lemma insertBy_sorted {A : Type} (cmp : A -> A -> Z) (x : A) (l : list A) :
  (forall a b, (0 < cmp a b)%Z -> (cmp b a <= 0)%Z) ->
  Sorted (inOrder cmp) l -> Sorted (inOrder cmp) (insertBy cmp x l).
Proof.
  intros Htot. induction l as [|y r IH]; intros Hs; cbn [insertBy].
  - constructor; constructor.
  - destruct (cmp x y <=? 0)%Z eqn:E.
    + constructor; [exact Hs|]. constructor. unfold inOrder. lia.
    + inversion Hs as [|? ? Hr Hhd]; subst.
      constructor; [apply IH, Hr|].
      destruct r as [|z r']; cbn [insertBy].
      * constructor. apply Htot. lia.
      * destruct (cmp x z <=? 0)%Z.
        -- constructor. apply Htot. lia.
        -- constructor. now inversion Hhd.
Qed.

Lemma sortBy_sorted {A : Type} (cmp : A -> A -> Z) (l : list A) :
  (forall a b, (0 < cmp a b)%Z -> (cmp b a <= 0)%Z) ->
  Sorted (inOrder cmp) (sortBy cmp l).
Proof.
  intros Htot. induction l as [|x r IH]; [constructor|].
  cbn [sortBy fold_right]. now apply insertBy_sorted.
Qed.

(** ** Handlers and effects, cell by cell *)

Section Coverage.

Context {R : ProjectRepository}.

Ltac cells :=
  cbn [negb versions versionsRef loadingFailed project page hash version
         hideUi iframeUpdateTrigger iFrameSrc memoDeps memoRuns pushed
         banner console setVersions setLoadingFailed setProject setPage
         setHash setVersion setHideUi bumpIframeUpdateTrigger pushState
         callBanner consoleError storeMemo updateUrl].

Ltac split_ifs :=
  repeat match goal with
         | |- context [if ?b then _ else _] => destruct b
         end.

(** A step whose handler changes nothing changes nothing. *)
Lemma step_fixed (e : Event) (s : State) :
  rendered s -> handle e s = s -> step e s = s.
Proof.
  intros Hr Hh. rewrite step_quiet; rewrite ?Hh; auto.
Qed.

(** The tuple and the written addresses after a step are the handler's. *)
Lemma step_tuple (e : Event) (s : State) :
  tupleOf (step e s) = tupleOf (handle e s)
  /\ pushed (step e s) = pushed (handle e s)
  /\ versions (step e s) = versions (handle e s)
  /\ loadingFailed (step e s) = loadingFailed (handle e s)
  /\ console (step e s) = console (handle e s).
Proof.
  pose proof (step_cells e s) as C. cbv zeta in C.
  destruct C as (C1 & C2 & C3 & C4 & C5 & C6 & C7 & _ & _ & _ & _ & C12 & C13).
  destruct (render_cells (handle e s))
    as (R1 & _ & R3 & R4 & R5 & R6 & R7 & R8 & _ & R10 & _ & R12).
  unfold tupleOf.
  rewrite C1, C2, C3, C4, C5, C6, C7, C12, C13, R1, R3, R4, R5, R6, R7, R8, R10, R12.
  repeat split.
Qed.

(** The guards of the effect on [[location]]: a location that decodes to
    the tuple in memory changes no cell. *)
Lemma syncLocation_same (loc : Location) (s : State) :
  decodeLocation loc = tupleOf s -> syncLocation loc s = s.
Proof.
  unfold decodeLocation, tupleOf. intros E.
  inversion E as [[E1 E2 E3 E4 E5]].
  unfold syncLocation. cbv zeta.
  rewrite E1, E2, E3, E4, E5.
  rewrite !String.eqb_refl, Bool.eqb_reflx. cbn [negb].
  rewrite !String.eqb_refl. reflexivity.
Qed.

Lemma syncLocation_versions (loc : Location) (s : State) :
  versions (syncLocation loc s)
  = (if String.eqb (projectOf loc) (project s) then versions s else [])
  /\ versionsRef (syncLocation loc s)
     = (if String.eqb (projectOf loc) (project s)
        then versionsRef s else S (versionsRef s))
  /\ banner (syncLocation loc s) = banner s
  /\ console (syncLocation loc s) = console s.
Proof.
  destruct s as [vs vr lf pr pg ha ve hu tr src md mr pu ba co].
  unfold syncLocation. cells.
  destruct (String.eqb (projectOf loc) pr);
    destruct (String.eqb (versionOf loc) ve);
    destruct (Bool.eqb (hideUiOf loc) hu); cells;
    destruct (String.eqb (pageOf loc) pg); cells;
    destruct (String.eqb (hashOf loc) ha); cells;
    repeat split.
Qed.

(** What the completion of the fetch stores for a non-empty array. *)
Lemma resolveVersions_cells
    (requested : string) (fetched : list ProjectDetails) (s : State) :
  fetched <> [] ->
  let allVersions := sortBy (fun a b => compareVersions a b) fetched in
  let latestVersion := name (getLatestVersion allVersions) in
  let s' := resolveVersions requested (Fetched fetched) s in
  versions s' = allVersions
  /\ versionsRef s' = S (versionsRef s)
  /\ banner s' = banner s
  /\ pushed s' = pushed s
  /\ version s'
     = if String.eqb requested "latest"
       then if String.eqb latestVersion "latest" then version s else latestVersion
       else version s.
Proof.
  intros Hne. cbv zeta. unfold resolveVersions.
  rewrite (length_nonzero fetched Hne).
  destruct (String.eqb requested "latest");
    [destruct (String.eqb
                 (name (getLatestVersion
                          (sortBy (fun a b => compareVersions a b) fetched)))
                 "latest")
    |destruct (Str.includes requested
                 (flat_map (fun v => name v :: tags v)
                    (sortBy (fun a b => compareVersions a b) fetched)))];
    repeat split.
Qed.

(** The banner call made by the step in which a non-empty array of
    versions arrives: the effect runs, and compares the version then in
    memory with the name of the latest version. *)
Lemma arrival_banner
    (requested : string) (fetched : list ProjectDetails) (s : State) :
  fetched <> [] ->
  let h := resolveVersions requested (Fetched fetched) s in
  banner (step (VersionsArrived requested (Fetched fetched)) s)
  = (if String.eqb (version h) (name (getLatestVersion (versions h)))
     then ClearMessages else ShowMessage outdatedMessage) :: banner s.
Proof.
  intros Hne. cbv zeta.
  destruct (resolveVersions_cells requested fetched s Hne)
    as (Hvs & Hx & Hb & _).
  cbv zeta in Hvs, Hx, Hb.
  unfold step. cbn [handle].
  destruct (render_cells (resolveVersions requested (Fetched fetched) s))
    as (R1 & R2 & _ & _ & _ & _ & R7 & _ & _ & _ & R11 & _).
  unfold bannerDepsChanged. rewrite R2, R7, Hx.
  replace (Nat.eqb (versionsRef s) (S (versionsRef s))) with false
    by (symmetry; apply Nat.eqb_neq; lia).
  rewrite andb_false_r. cbn [negb].
  unfold outdatedBanner. rewrite R1, R7, Hvs.
  rewrite length_nonzero.
  - destruct (String.eqb (version (resolveVersions requested (Fetched fetched) s))
                (name (getLatestVersion
                         (sortBy (fun a b => compareVersions a b) fetched))));
      cells; now rewrite R11, Hb.
  - intros E0. apply (f_equal (@length _)) in E0.
    rewrite sortBy_length in E0. destruct fetched; [contradiction | discriminate E0].
Qed.

(** No handler but the address change and the arrival of the versions
    touches [versions]. *)
Lemma handle_versions (e : Event) (s : State) :
  arrival e = false ->
  versions s = [] -> versions (handle e s) = [].
Proof.
  intros Ha Hv.
  destruct e as [loc | [pg h | h] | nv | | req r];
    cbn [handle viewerChanged]; try discriminate Ha.
  - destruct (syncLocation_versions loc s) as (-> & _).
    now destruct (String.eqb (projectOf loc) (project s)).
  - unfold iFramePageChanged. split_ifs; exact Hv.
  - unfold iFrameHashChanged. split_ifs; exact Hv.
  - unfold onVersionChanged. split_ifs; exact Hv.
  - exact Hv.
Qed.

(** ** Failure of the resolution *)

(** X1.  When the fetch of the versions throws, the [catch] logs the
    exception and sets [loadingFailed]; the versions, the navigation tuple
    and the written addresses stay as they were, and the page shows
    not-found after any further events. *)
Theorem fetch_failure_fails_for_good
    (requested : string) (s : State) (es : list Event) :
  let s' := step (VersionsArrived requested FetchThrew) s in
  loadingFailed s' = true
  /\ console s' = ErrorException :: console s
  /\ versions s' = versions s
  /\ tupleOf s' = tupleOf s
  /\ pushed s' = pushed s
  /\ view (run es s') = NotFound.
Proof.
  cbv zeta.
  destruct (step_tuple (VersionsArrived requested FetchThrew) s)
    as (Ht & Hp & Hv & Hl & Hc).
  assert (loadingFailed (step (VersionsArrived requested FetchThrew) s) = true)
    as H by (rewrite Hl; reflexivity).
  rewrite Hc, Hv, Ht, Hp.
  repeat split; try exact H.
  apply view_failed, loadingFailed_run, H.
Qed.

(** X2.  [loadingFailed] is terminal: once set, no sequence of address
    changes, viewer reports, user actions or fetch completions clears it,
    and the page keeps showing not-found. *)
Theorem loading_failed_is_terminal (s : State) (es : list Event) :
  loadingFailed s = true ->
  loadingFailed (run es s) = true /\ view (run es s) = NotFound.
Proof.
  intros H. split; [|apply view_failed]; now apply loadingFailed_run.
Qed.

(** X12.  The banner effect runs in the step in which a non-empty array of
    versions arrives, also when the resolution of a concrete version
    fails: with the requested version in memory, the banner is cleared
    when that version is the name of the latest one and the outdated
    warning is shown otherwise.  So an unknown version, with the latest
    version among the stored ones, shows the warning next to the
    not-found page. *)
Theorem failed_resolution_still_calls_banner
    (requested : string) (fetched : list ProjectDetails) (s : State) :
  fetched <> [] ->
  requested <> "latest" ->
  version s = requested ->
  let allVersions := sortBy (fun a b => compareVersions a b) fetched in
  let s' := step (VersionsArrived requested (Fetched fetched)) s in
  banner s'
  = (if String.eqb requested (name (getLatestVersion allVersions))
     then ClearMessages else ShowMessage outdatedMessage) :: banner s
  /\ (~ (exists r, In r fetched /\ (name r = requested \/ In requested (tags r))) ->
      In (getLatestVersion allVersions) allVersions ->
      banner s' = ShowMessage outdatedMessage :: banner s
      /\ view s' = NotFound).
Proof.
  intros Hne Hreq Hv. cbv zeta.
  rewrite (arrival_banner requested fetched s Hne).
  destruct (resolveVersions_cells requested fetched s Hne) as (Hvs & _ & _ & _ & Hver).
  cbv zeta in Hvs, Hver. rewrite Hvs, Hver.
  apply String.eqb_neq in Hreq. rewrite Hreq, Hv.
  split; [reflexivity|]. intros Hunknown Hin. split.
  - destruct (String.eqb requested
                (name (getLatestVersion
                         (sortBy (fun a b => compareVersions a b) fetched)))) eqn:E;
      [|reflexivity].
    apply String.eqb_eq in E. exfalso. apply Hunknown.
    exists (getLatestVersion (sortBy (fun a b => compareVersions a b) fetched)).
    split; [|left; now symmetry].
    eapply Permutation_in; [apply sortBy_perm | exact Hin].
  - apply view_failed.
    destruct (step_tuple (VersionsArrived requested (Fetched fetched)) s)
      as (_ & _ & _ & -> & _).
    cbn [handle]. unfold resolveVersions.
    rewrite (length_nonzero fetched Hne), Hreq.
    destruct (Str.includes requested
                (flat_map (fun v => name v :: tags v)
                   (sortBy (fun a b => compareVersions a b) fetched))) eqn:E;
      [|reflexivity].
    apply versionsAndTags_includes in E. contradiction.
Qed.

(** X11.  Resolving the alias [latest] to a concrete name clears the
    banner in the same step: the version stored is the name of the latest
    of the versions stored, so the outdated warning is never shown. *)
Theorem latest_resolution_clears_banner
    (fetched : list ProjectDetails) (s : State) :
  fetched <> [] ->
  name (getLatestVersion (sortBy (fun a b => compareVersions a b) fetched))
  <> "latest" ->
  banner (step (VersionsArrived "latest" (Fetched fetched)) s)
  = ClearMessages :: banner s.
Proof.
  intros Hne Hl.
  rewrite (arrival_banner "latest" fetched s Hne).
  destruct (resolveVersions_cells "latest" fetched s Hne) as (Hvs & _ & _ & _ & Hver).
  cbv zeta in Hvs, Hver. rewrite Hvs, Hver.
  apply String.eqb_neq in Hl. rewrite String.eqb_refl, Hl.
  now rewrite String.eqb_refl.
Qed.

(** X10.  Only the arrival of the versions fills [versions]: while it is
    empty, no sequence of address changes, viewer reports and user
    actions makes it non-empty, so the frame is never shown. *)
Theorem only_arrival_fills_versions (es : list Event) (s : State) :
  versions s = [] ->
  forallb (fun e => negb (arrival e)) es = true ->
  versions (run es s) = []
  /\ forall src controls, view (run es s) <> Frame src controls.
Proof.
  intros Hv Hes.
  assert (versions (run es s) = []) as H.
  { revert s Hv. induction es as [|e es IH]; intros s Hv; [exact Hv|].
    cbn [forallb] in Hes. apply andb_true_iff in Hes as [He Hes].
    apply negb_true_iff in He.
    cbn [run fold_left]. fold (run es (step e s)). apply (IH Hes).
    destruct (step_tuple e s) as (_ & _ & -> & _).
    now apply handle_versions. }
  split; [exact H|]. intros src controls. unfold view. rewrite H.
  cbn [length Nat.eqb].
  destruct (loadingFailed (run es s) || String.eqb (project (run es s)) EmptyString);
    discriminate.
Qed.

(** ** Addresses written and read *)

(** X4.  [getUrl] is not one-to-one: a hash that ends with the flag text,
    written without the flag, gives the very address of the shorter hash
    written with the flag, for two different tuples. *)
Theorem getUrl_collision (p v pg h : string) :
  let t1 := {| tProject := p; tVersion := v; tPage := pg;
               tHash := (h ++ "?hide-ui=true")%string; tHideUi := false |} in
  let t2 := {| tProject := p; tVersion := v; tPage := pg;
               tHash := h; tHideUi := true |} in
  encode t1 = encode t2 /\ t1 <> t2.
Proof.
  cbv zeta. split.
  - unfold encode, getUrl. cbn [tProject tVersion tPage tHash tHideUi].
    rewrite StrFacts.append_assoc. reflexivity.
  - intros E. apply (f_equal tHideUi) in E. discriminate E.
Qed.

(** X5.  A hash read from the address never holds a [?]: not after the
    mount, and not after an address change, whatever the state before. *)
Theorem hash_from_address_has_no_query (loc : Location) (s : State) :
  Str.has "?" (hash (mount loc)) = false
  /\ Str.has "?" (hash (step (LocationChanged loc) s)) = false.
Proof.
  split.
  - cbn [mount hash]. rewrite CutFacts.hashOf_cut. apply CutFacts.breakAt_clean.
  - destruct (step_tuple (LocationChanged loc) s) as (Ht & _).
    apply (f_equal tHash) in Ht. cbn [tupleOf tHash] in Ht. rewrite Ht.
    cbn [handle]. destruct (syncLocation_cells loc s) as (_ & _ & _ & -> & _).
    rewrite CutFacts.hashOf_cut. apply CutFacts.breakAt_clean.
Qed.

(** X6.  The effect on [[location]] does not retrigger itself: run right
    after the mount it changes nothing, and run twice for the same
    location, the second run changes nothing (no cell, no reload, no
    banner call). *)
Theorem address_change_idempotent (loc : Location) (s : State) :
  step (LocationChanged loc) (mount loc) = mount loc
  /\ step (LocationChanged loc) (step (LocationChanged loc) s)
     = step (LocationChanged loc) s.
Proof.
  split.
  - apply step_fixed; [apply rendered_mount|].
    cbn [handle]. apply syncLocation_same. reflexivity.
  - apply step_fixed; [apply rendered_step|].
    cbn [handle]. apply syncLocation_same.
    destruct (step_tuple (LocationChanged loc) s) as (-> & _).
    cbn [handle]. symmetry. apply syncLocation_decodes.
Qed.

(** X7.  The written address follows the memory: an address change and the
    arrival of the versions write no address; a viewer report and a
    version selection either change neither the tuple nor the addresses
    written, or write the address that encodes the tuple then in memory;
    the hide-ui action always writes it, also when the controls were
    hidden already. *)
Theorem written_address_encodes_memory (e : Event) (s : State) :
  let s' := step e s in
  match e with
  | LocationChanged _ | VersionsArrived _ _ => pushed s' = pushed s
  | HideUi => pushed s' = encode (tupleOf s') :: pushed s
  | Viewer _ | VersionChange _ =>
      (tupleOf s' = tupleOf s /\ pushed s' = pushed s)
      \/ pushed s' = encode (tupleOf s') :: pushed s
  end.
Proof.
  cbv zeta. destruct (step_tuple e s) as (-> & -> & _).
  destruct e as [loc | [pg h | h] | nv | | req [fetched|]];
    cbn [handle viewerChanged].
  - apply syncLocation_cells.
  - unfold iFramePageChanged. destruct (String.eqb pg (page s));
      [left; split; reflexivity | right; reflexivity].
  - unfold iFrameHashChanged. destruct (String.eqb h (hash s));
      [left; split; reflexivity | right; reflexivity].
  - unfold onVersionChanged. destruct (String.eqb nv (version s));
      [left; split; reflexivity | right; reflexivity].
  - reflexivity.
  - unfold resolveVersions. split_ifs; reflexivity.
  - reflexivity.
Qed.

(** X9.  An address change that changes the project alone clears the
    versions and stores the project, but runs no memo callback: the
    source address of the viewer stays the one computed for the old
    project, and the page shows the loading page. *)
Theorem project_only_change (loc : Location) (s : State) :
  rendered s ->
  projectOf loc <> project s ->
  versionOf loc = version s ->
  pageOf loc = page s ->
  hashOf loc = hash s ->
  let s' := step (LocationChanged loc) s in
  project s' = projectOf loc
  /\ versions s' = []
  /\ iFrameSrc s' = iFrameSrc s
  /\ memoRuns s' = memoRuns s
  /\ banner s' = banner s
  /\ (loadingFailed s = false -> projectOf loc <> EmptyString ->
      view s' = LoadingPage).
Proof.
  intros Hr Hp Hv Hg Ha. cbv zeta.
  apply String.eqb_neq in Hp.
  destruct (syncLocation_cells loc s) as (S1 & S2 & _ & _ & _ & S6 & _ & S8).
  destruct (syncLocation_versions loc s) as (V1 & _ & V3 & _).
  rewrite Hp in V1. rewrite Hg, Ha, !String.eqb_refl in S8.
  destruct (handle_memo (LocationChanged loc) s) as (M1 & M2 & M3).
  cbn [handle] in M1, M2, M3.
  assert (rendered (syncLocation loc s)) as Hr'.
  { unfold rendered in *. rewrite M2, S2, S8, Hr, Hv. f_equal. lia. }
  assert (step (LocationChanged loc) s = syncLocation loc s) as ->.
  { unfold step. cbn [handle]. rewrite (render_rendered _ Hr').
    destruct (bannerDepsChanged s (syncLocation loc s)); [|reflexivity].
    unfold outdatedBanner. now rewrite V1. }
  rewrite S1, V1, M1, M3, V3. repeat split.
  intros Hl Hne. unfold view. rewrite S6, Hl, S1, V1.
  apply String.eqb_neq in Hne. now rewrite Hne.
Qed.

(** X14.  The project in memory changes by an address change only: every
    other event leaves it; so a page without a project shows not-found
    until the address names one. *)
Theorem project_changes_only_by_address (e : Event) (s : State) :
  project (step e s)
  = match e with
    | LocationChanged loc => projectOf loc
    | _ => project s
    end
  /\ (project s = EmptyString ->
      match e with
      | LocationChanged _ => True
      | _ => view (step e s) = NotFound
      end).
Proof.
  assert (project (step e s)
          = match e with
            | LocationChanged loc => projectOf loc
            | _ => project s
            end) as H.
  { destruct (step_tuple e s) as (Ht & _).
    apply (f_equal tProject) in Ht. cbn [tupleOf tProject] in Ht. rewrite Ht.
    destruct e as [loc | [pg h | h] | nv | | req [fetched|]];
      cbn [handle viewerChanged].
    - apply syncLocation_cells.
    - unfold iFramePageChanged. split_ifs; reflexivity.
    - unfold iFrameHashChanged. split_ifs; reflexivity.
    - unfold onVersionChanged. split_ifs; reflexivity.
    - reflexivity.
    - unfold resolveVersions. split_ifs; reflexivity.
    - reflexivity. }
  split; [exact H|]. intros He.
  destruct e as [loc | v | nv | | req r]; [exact I | | | |];
    unfold view; rewrite H, He; cbn [String.eqb]; now rewrite orb_true_r.
Qed.

(** ** The banner effect after a step *)

(** What a handler does to [versions]: it leaves the array, or empties it,
    or it is the arrival of a non-empty array. *)
Lemma handle_versions_cases (e : Event) (s : State) :
  (versions (handle e s) = versions s /\ versionsRef (handle e s) = versionsRef s)
  \/ versions (handle e s) = []
  \/ (exists requested fetched,
        e = VersionsArrived requested (Fetched fetched) /\ fetched <> []).
Proof.
  destruct e as [loc | [pg h | h] | nv | | req [fetched|]];
    cbn [handle viewerChanged].
  - destruct (syncLocation_versions loc s) as (-> & -> & _).
    destruct (String.eqb (projectOf loc) (project s)); [left; split | right; left];
      reflexivity.
  - left. unfold iFramePageChanged. split_ifs; split; reflexivity.
  - left. unfold iFrameHashChanged. split_ifs; split; reflexivity.
  - left. unfold onVersionChanged. split_ifs; split; reflexivity.
  - left. split; reflexivity.
  - destruct fetched as [|x r].
    + left. split; reflexivity.
    + right. right. exists req, (x :: r). split; [reflexivity | discriminate].
  - left. split; reflexivity.
Qed.

(** The banner call of a step in which the effect runs on a non-empty
    array. *)
Lemma banner_effect_runs (e : Event) (s : State) :
  bannerDepsChanged s (render (handle e s)) = true ->
  versions (handle e s) <> [] ->
  banner (step e s)
  = (if String.eqb (version (handle e s))
                   (name (getLatestVersion (versions (handle e s))))
     then ClearMessages else ShowMessage outdatedMessage) :: banner s.
Proof.
  intros Hch Hne. unfold step. rewrite Hch.
  destruct (render_cells (handle e s))
    as (R1 & _ & _ & _ & _ & _ & R7 & _ & _ & _ & R11 & _).
  unfold outdatedBanner. rewrite R1, R7, (length_nonzero _ Hne).
  destruct (String.eqb (version (handle e s))
              (name (getLatestVersion (versions (handle e s)))));
    cells; now rewrite R11, handle_banner.
Qed.

(** The banner after a step in which the effect does not run. *)
Lemma banner_effect_idle (e : Event) (s : State) :
  bannerDepsChanged s (render (handle e s)) = false ->
  banner (step e s) = banner s.
Proof.
  intros Hch. unfold step. rewrite Hch.
  destruct (render_cells (handle e s))
    as (_ & _ & _ & _ & _ & _ & _ & _ & _ & _ & -> & _).
  apply handle_banner.
Qed.

Lemma banner_empty (e : Event) (s : State) :
  versions (handle e s) = [] -> banner (step e s) = banner s.
Proof.
  intros He. unfold step.
  destruct (render_cells (handle e s))
    as (R1 & _ & _ & _ & _ & _ & _ & _ & _ & _ & R11 & _).
  destruct (bannerDepsChanged s (render (handle e s))).
  - unfold outdatedBanner. rewrite R1, He. cbn [length Nat.eqb].
    rewrite R11. apply handle_banner.
  - rewrite R11. apply handle_banner.
Qed.

(** C9.  The outdated-version notifier, step by step.  A step that ends
    with no versions makes no banner call.  A step that ends with
    versions, and that changed the version in memory, or changed the
    versions, or stored a non-empty fetched array, makes exactly one
    banner call: it clears the banner when the version in memory is the
    name of the latest version, and otherwise shows the warning [You are
    viewing an outdated version of the documentation.], which never
    expires ([showMs] is [null]).  A step that changed neither the version
    nor the versions and stored no fetched array makes no banner call. *)
Theorem outdated_banner_contract (e : Event) (s : State) :
  let s' := step e s in
  let call :=
    if String.eqb (version s') (name (getLatestVersion (versions s')))
    then ClearMessages
    else ShowMessage
           {| content := "You are viewing an outdated version of the documentation.";
              type := "warning";
              showMs := None |} in
  (versions s' = [] -> banner s' = banner s)
  /\ (versions s' <> [] ->
      version s' <> version s
      \/ versions s' <> versions s
      \/ (exists requested fetched,
            e = VersionsArrived requested (Fetched fetched) /\ fetched <> []) ->
      banner s' = call :: banner s)
  /\ (version s' = version s ->
      versions s' = versions s ->
      (forall requested fetched,
         e = VersionsArrived requested (Fetched fetched) -> fetched = []) ->
      banner s' = banner s).
Proof.
  cbv zeta.
  destruct (step_tuple e s) as (Ht & _ & Hvs & _).
  apply (f_equal tVersion) in Ht. cbn [tupleOf tVersion] in Ht.
  rewrite Ht, Hvs.
  destruct (render_cells (handle e s))
    as (_ & R2 & _ & _ & _ & _ & R7 & _).
  split; [|split].
  - apply banner_empty.
  - intros Hne Hch.
    change (ShowMessage
              {| content := "You are viewing an outdated version of the documentation.";
                 type := "warning"; showMs := None |})
      with (ShowMessage outdatedMessage).
    apply banner_effect_runs; [|exact Hne].
    unfold bannerDepsChanged. rewrite R2, R7. apply negb_true_iff.
    apply andb_false_iff.
    destruct (handle_versions_cases e s)
      as [[Hsame Hx] | [Hempty | (req & fetched & -> & Hf)]].
    + left. apply String.eqb_neq.
      destruct Hch as [Hv | [Hv | (req & fetched & -> & Hf)]].
      * now apply not_eq_sym.
      * contradiction.
      * exfalso. cbn [handle] in Hx.
        destruct (resolveVersions_cells req fetched s Hf) as (_ & Hx' & _).
        cbv zeta in Hx'. lia.
    + contradiction.
    + right. cbn [handle].
      destruct (resolveVersions_cells req fetched s Hf) as (_ & -> & _).
      apply Nat.eqb_neq. lia.
  - intros Hv Hsame Harr.
    destruct (handle_versions_cases e s)
      as [[_ Hx] | [Hempty | (req & fetched & -> & Hf)]].
    + apply banner_effect_idle.
      unfold bannerDepsChanged. rewrite R2, R7, Hv, Hx.
      now rewrite String.eqb_refl, Nat.eqb_refl.
    + now apply banner_empty.
    + exfalso. apply Hf. now apply (Harr req fetched).
Qed.

(** ** The written address and the guards of the location effect *)

(** X3.  The page adds no segment to the address: for a plain project and
    version and every page, hash and flag, the address is the one written
    without hash and flag followed by the hash and the flag text, and that
    one splits at [/] into exactly the marker, the project, the version
    and the escaped page; the escaped page holds none of [/], [?] and [#],
    and unescaping it gives the page back. *)
Theorem page_adds_no_segment (p v pg h : string) (f : bool) :
  plainSegment p = true ->
  plainSegment v = true ->
  getUrl p v pg h f
  = (getUrl p v pg EmptyString false ++ h
       ++ (if f then "?hide-ui=true" else EmptyString))%string
  /\ Str.split "/" (getUrl p v pg EmptyString false)
     = ["#"; p; v; Uri.encodeURIComponent pg]
  /\ Str.hasAny ["/"; "?"; "#"]%char (Uri.encodeURIComponent pg) = false
  /\ Uri.decodeURIComponent (Uri.encodeURIComponent pg) = Some pg.
Proof.
  intros Hp Hv. split; [|split; [|split]].
  - unfold getUrl. cbn [append].
    rewrite !StrFacts.append_assoc. cbn [append].
    rewrite !StrFacts.append_assoc. cbn [append].
    rewrite StrFacts.append_empty_r. reflexivity.
  - unfold getUrl. cbn [append Str.split Ascii.eqb Bool.eqb].
    rewrite StrFacts.split_append
      by (apply CodecFacts.plainSegment_clean; [assumption | cbn [In]; tauto]).
    rewrite StrFacts.split_append
      by (apply CodecFacts.plainSegment_clean; [assumption | cbn [In]; tauto]).
    rewrite StrFacts.append_empty_r.
    rewrite StrFacts.split_none by (apply UriFacts.encode_clean; cbn [In]; tauto).
    reflexivity.
  - unfold Str.hasAny. cbn [existsb].
    rewrite !UriFacts.encode_clean by (cbn [In]; tauto). reflexivity.
  - apply UriFacts.decode_encode.
Qed.

(** X8.  The guards of the effect on [[location]] taken together: an
    address change whose location carries the project, version, page,
    hash and hide-ui flag already in memory changes no cell, bumps no
    trigger and runs no memo callback, so the viewer is not reloaded. *)
Theorem matching_address_changes_nothing (loc : Location) (s : State) :
  rendered s ->
  decodeLocation loc = tupleOf s ->
  step (LocationChanged loc) s = s.
Proof.
  intros Hr Hd. apply step_fixed; [exact Hr|].
  cbn [handle]. now apply syncLocation_same.
Qed.

(** X13.  Whatever version was requested, and also when the resolution
    fails, a non-empty fetched array is stored sorted: the stored versions
    are a rearrangement of the fetched ones, and for a consistent
    [compareVersions] they are in its order. *)
Theorem stored_versions_sorted
    (requested : string) (fetched : list ProjectDetails) (s : State) :
  fetched <> [] ->
  let s' := step (VersionsArrived requested (Fetched fetched)) s in
  Permutation (versions s') fetched
  /\ (consistentComparator (fun a b => compareVersions a b) ->
      Sorted (inOrder (fun a b => compareVersions a b)) (versions s')).
Proof.
  intros Hne. cbv zeta.
  destruct (step_tuple (VersionsArrived requested (Fetched fetched)) s)
    as (_ & _ & -> & _).
  cbn [handle].
  destruct (resolveVersions_cells requested fetched s Hne) as (Hvs & _).
  cbv zeta in Hvs. rewrite Hvs. split.
  - apply sortBy_perm.
  - intros [Hanti _]. apply sortBy_sorted.
    intros a b Hab. apply Hanti in Hab. lia.
Qed.

End Coverage.

(** ** The further properties on the concrete repository *)

Lemma loading_failed_witness :
  let s := step (R := lexicalRepository)
             (VersionsArrived "9.9.9" (Fetched [release "2.0.0"]))
             (mount (R := lexicalRepository)
                (Router.locate "#/docat/9.9.9/index.html")) in
  let es := [VersionChange "2.0.0";
             LocationChanged (Router.locate "#/docat/2.0.0/index.html");
             VersionsArrived "2.0.0" (Fetched [release "2.0.0"])] in
  loadingFailed s = true
  /\ version (run (R := lexicalRepository) es s) = "2.0.0"
  /\ view (run (R := lexicalRepository) es s) = NotFound.
Proof.
  cbv zeta. refine (conj eq_refl (conj eq_refl _)).
  apply (loading_failed_is_terminal (R := lexicalRepository)
           (step (R := lexicalRepository)
              (VersionsArrived "9.9.9" (Fetched [release "2.0.0"]))
              (mount (R := lexicalRepository)
                 (Router.locate "#/docat/9.9.9/index.html")))
           [VersionChange "2.0.0";
            LocationChanged (Router.locate "#/docat/2.0.0/index.html");
            VersionsArrived "2.0.0" (Fetched [release "2.0.0"])]).
  reflexivity.
Defined.

Lemma project_only_change_witness :
  let s := step (R := lexicalRepository)
             (VersionsArrived "1.0.0" (Fetched [release "1.0.0"]))
             (mount (R := lexicalRepository)
                (Router.locate "#/docat/1.0.0/index.html")) in
  let loc := Router.locate "#/other/1.0.0/index.html" in
  let s' := step (R := lexicalRepository) (LocationChanged loc) s in
  rendered s /\ projectOf loc <> project s
  /\ view s = Frame "/doc/docat/1.0.0/index.html" true
  /\ project s' = "other"
  /\ iFrameSrc s' = "/doc/docat/1.0.0/index.html"
  /\ view s' = LoadingPage.
Proof.
  cbv zeta.
  assert (projectOf (Router.locate "#/other/1.0.0/index.html")
          <> project (step (R := lexicalRepository)
                        (VersionsArrived "1.0.0" (Fetched [release "1.0.0"]))
                        (mount (R := lexicalRepository)
                           (Router.locate "#/docat/1.0.0/index.html")))) as Hp
    by (vm_compute; discriminate).
  assert (rendered (step (R := lexicalRepository)
                      (VersionsArrived "1.0.0" (Fetched [release "1.0.0"]))
                      (mount (R := lexicalRepository)
                         (Router.locate "#/docat/1.0.0/index.html")))) as Hr
    by (vm_compute; reflexivity).
  split; [exact Hr|]. split; [exact Hp|].
  split; [vm_compute; reflexivity|].
  destruct (project_only_change (R := lexicalRepository)
              (Router.locate "#/other/1.0.0/index.html")
              (step (R := lexicalRepository)
                 (VersionsArrived "1.0.0" (Fetched [release "1.0.0"]))
                 (mount (R := lexicalRepository)
                    (Router.locate "#/docat/1.0.0/index.html")))
              Hr Hp)
    as (H1 & _ & H3 & _ & _ & H6); try (vm_compute; reflexivity).
  split; [rewrite H1; vm_compute; reflexivity|].
  split; [rewrite H3; vm_compute; reflexivity|].
  apply H6; [vm_compute; reflexivity | vm_compute; discriminate].
Defined.

Lemma only_arrival_witness :
  let s := mount (R := lexicalRepository) (Router.locate "#/docat/1.0.0/index.html") in
  let es := [Viewer (PageChanged "guide.html" "#top"); VersionChange "2.0.0"; HideUi;
             LocationChanged (Router.locate "#/other/2.0.0/index.html")] in
  versions s = []
  /\ versions (run (R := lexicalRepository) es s) = []
  /\ view (run (R := lexicalRepository) es s) = LoadingPage.
Proof.
  cbv zeta. refine (conj eq_refl _).
  destruct (only_arrival_fills_versions (R := lexicalRepository)
              [Viewer (PageChanged "guide.html" "#top"); VersionChange "2.0.0"; HideUi;
               LocationChanged (Router.locate "#/other/2.0.0/index.html")]
              (mount (R := lexicalRepository)
                 (Router.locate "#/docat/1.0.0/index.html"))
              eq_refl eq_refl)
    as (H1 & _).
  split; [exact H1 | reflexivity].
Defined.

Lemma latest_clears_banner_witness :
  let fetched := [release "1.0.0"; release "1.2.0"; release "1.1.0"] in
  let s := mount (R := lexicalRepository) (Router.locate "#/docat/latest/index.html") in
  fetched <> []
  /\ banner (step (R := lexicalRepository) (VersionsArrived "latest" (Fetched fetched)) s)
     = [ClearMessages].
Proof.
  cbv zeta.
  assert ([release "1.0.0"; release "1.2.0"; release "1.1.0"] <> []) as Hne
    by discriminate.
  split; [exact Hne|].
  apply (latest_resolution_clears_banner (R := lexicalRepository)
           [release "1.0.0"; release "1.2.0"; release "1.1.0"]
           (mount (R := lexicalRepository)
              (Router.locate "#/docat/latest/index.html")) Hne).
  vm_compute. discriminate.
Defined.

Lemma failed_resolution_banner_witness :
  let s := mount (R := lexicalRepository) (Router.locate "#/docat/9.9.9/index.html") in
  let s' := step (R := lexicalRepository)
              (VersionsArrived "9.9.9" (Fetched [release "2.0.0"])) s in
  version s = "9.9.9"
  /\ banner s' = [ShowMessage outdatedMessage]
  /\ view s' = NotFound.
Proof.
  cbv zeta. refine (conj eq_refl _).
  assert ([release "2.0.0"] <> []) as Hne by discriminate.
  assert ("9.9.9" <> "latest") as Hreq by discriminate.
  destruct (failed_resolution_still_calls_banner (R := lexicalRepository) "9.9.9"
              [release "2.0.0"]
              (mount (R := lexicalRepository)
                 (Router.locate "#/docat/9.9.9/index.html"))
              Hne Hreq eq_refl)
    as (_ & Hunknown).
  apply Hunknown.
  - intros [r [[<- | []] [H | []]]]. discriminate H.
  - left. reflexivity.
Defined.


(** ** Lexical order is consistent *)

Lemma string_compare_trans (a b c : string) :
  String.compare a b <> Gt -> String.compare b c <> Gt ->
  String.compare a c <> Gt.
Proof.
  revert b c. induction a as [|x a IH]; intros [|y b] [|z c];
    cbn [String.compare]; try congruence.
  unfold Ascii.compare.
  destruct (N.compare_spec (N_of_ascii x) (N_of_ascii y));
    destruct (N.compare_spec (N_of_ascii y) (N_of_ascii z));
    destruct (N.compare_spec (N_of_ascii x) (N_of_ascii z));
    intros Hab Hbc; try congruence; try (exfalso; lia).
  now apply (IH b c).
Qed.

Lemma lexicalCompare_order (a b : ProjectDetails) :
  (lexicalCompare a b <= 0)%Z <-> String.compare (name a) (name b) <> Gt.
Proof.
  unfold lexicalCompare.
  destruct (String.compare (name a) (name b)); split; intros H;
    try lia; try congruence.
Qed.

Lemma lexicalCompare_consistent : consistentComparator lexicalCompare.
Proof.
  split.
  - intros a b. unfold lexicalCompare.
    rewrite (String.compare_antisym (name b) (name a)).
    destruct (String.compare (name a) (name b)); cbn [CompOpp]; lia.
  - intros a b c Hab Hbc. apply lexicalCompare_order.
    apply lexicalCompare_order in Hab, Hbc.
    now apply (string_compare_trans (name a) (name b) (name c)).
Qed.

(** ** The banner, the address and the sort on the concrete repository *)

Lemma outdated_banner_witness :
  let fetched := [release "1.0.0"; release "1.2.0"; release "1.1.0"] in
  let old := step (R := lexicalRepository) (VersionsArrived "1.0.0" (Fetched fetched))
               (mount (R := lexicalRepository)
                  (Router.locate "#/docat/1.0.0/index.html")) in
  let new := step (R := lexicalRepository) (VersionChange "1.2.0") old in
  versions old <> []
  /\ banner old
     = [ShowMessage
          {| content := "You are viewing an outdated version of the documentation.";
             type := "warning"; showMs := None |}]
  /\ banner new = ClearMessages :: banner old
  /\ banner (step (R := lexicalRepository) (Viewer (HashChanged "#top")) new)
     = banner new.
Proof.
  cbv zeta.
  assert (versions
            (step (R := lexicalRepository)
               (VersionsArrived "1.0.0"
                  (Fetched [release "1.0.0"; release "1.2.0"; release "1.1.0"]))
               (mount (R := lexicalRepository)
                  (Router.locate "#/docat/1.0.0/index.html"))) <> []) as Hne
    by (vm_compute; discriminate).
  split; [exact Hne|].
  destruct (outdated_banner_contract (R := lexicalRepository)
              (VersionsArrived "1.0.0"
                 (Fetched [release "1.0.0"; release "1.2.0"; release "1.1.0"]))
              (mount (R := lexicalRepository)
                 (Router.locate "#/docat/1.0.0/index.html")))
    as (_ & Hrun & _).
  split.
  - apply Hrun; [exact Hne|]. right. right.
    exists "1.0.0", [release "1.0.0"; release "1.2.0"; release "1.1.0"].
    split; [reflexivity | discriminate].
  - split; vm_compute; reflexivity.
Defined.

Lemma page_adds_no_segment_witness :
  plainSegment "project" = true /\ plainSegment "version" = true
  /\ Str.split "/" (getUrl "project" "version" "path/to/page.html" EmptyString false)
     = ["#"; "project"; "version"; "path%2Fto%2Fpage.html"]
  /\ getUrl "project" "version" "path/to/page.html" "#hash" false
     = "#/project/version/path%2Fto%2Fpage.html#hash".
Proof.
  refine (conj eq_refl (conj eq_refl _)).
  destruct (page_adds_no_segment "project" "version" "path/to/page.html" "#hash" false
              eq_refl eq_refl)
    as (H1 & H2 & _).
  split; [exact H2 | rewrite H1; reflexivity].
Defined.

Lemma matching_address_witness :
  let s := step (R := lexicalRepository) (Viewer (PageChanged "guide/a.html" "#top"))
             (mount (R := lexicalRepository)
                (Router.locate "#/docat/1.0.0/index.html")) in
  let loc := {| paramsProject := Some "docat"; paramsVersion := Some "1.0.0";
                paramsPage := Some "guide/a.html"; searchHideUi := None;
                locationHash := "#top" |} in
  rendered s /\ decodeLocation loc = tupleOf s
  /\ step (R := lexicalRepository) (LocationChanged loc) s = s.
Proof.
  cbv zeta.
  assert (rendered
            (step (R := lexicalRepository) (Viewer (PageChanged "guide/a.html" "#top"))
               (mount (R := lexicalRepository)
                  (Router.locate "#/docat/1.0.0/index.html")))) as Hr
    by (vm_compute; reflexivity).
  assert (decodeLocation
            {| paramsProject := Some "docat"; paramsVersion := Some "1.0.0";
               paramsPage := Some "guide/a.html"; searchHideUi := None;
               locationHash := "#top" |}
          = tupleOf
              (step (R := lexicalRepository)
                 (Viewer (PageChanged "guide/a.html" "#top"))
                 (mount (R := lexicalRepository)
                    (Router.locate "#/docat/1.0.0/index.html")))) as Hd
    by (vm_compute; reflexivity).
  split; [exact Hr|]. split; [exact Hd|].
  exact (matching_address_changes_nothing (R := lexicalRepository) _ _ Hr Hd).
Defined.

Lemma stored_versions_witness :
  let fetched := [release "1.0.0"; release "1.2.0"; release "1.1.0"] in
  let s := mount (R := lexicalRepository) (Router.locate "#/docat/7.7.7/index.html") in
  let s' := step (R := lexicalRepository) (VersionsArrived "7.7.7" (Fetched fetched)) s in
  fetched <> []
  /\ loadingFailed s' = true
  /\ versions s' = [release "1.0.0"; release "1.1.0"; release "1.2.0"]
  /\ Permutation (versions s') fetched
  /\ Sorted (inOrder lexicalCompare) (versions s').
Proof.
  cbv zeta.
  assert ([release "1.0.0"; release "1.2.0"; release "1.1.0"] <> []) as Hne
    by discriminate.
  refine (conj Hne (conj eq_refl (conj eq_refl _))).
  destruct (stored_versions_sorted (R := lexicalRepository) "7.7.7"
              [release "1.0.0"; release "1.2.0"; release "1.1.0"]
              (mount (R := lexicalRepository)
                 (Router.locate "#/docat/7.7.7/index.html")) Hne)
    as (H1 & H2).
  split; [exact H1 | exact (H2 lexicalCompare_consistent)].
Defined.
